(** * validate-test-structure.py: the test-structure analyzer and its report

    A shallow embedding of [analyze_test_file]: the eight [re.findall]
    recognizers that are run over the text of the Java test file, and the
    report that is printed from what they find.

    Python strings are sequences of Unicode code points, so a text is a list
    of code points.  The regular expressions are embedded as abstract syntax
    and run by a backtracking matcher that enumerates the ways a pattern can
    match in the priority order of Python's [re] module; the first one is the
    match [re] reports. *)

From Stdlib Require Import Ascii String DecimalString.
From Stdlib Require Import List NArith Arith Bool Lia.
Import ListNotations.

Set Implicit Arguments.
Set Warnings "-notation-for-abbreviation".

(** ** Texts *)

Notation char := N (only parsing).
Notation text := (list N) (only parsing).

(** A text written as a literal (every character of the literal is ASCII). *)
Definition str (s : string) : text := map N_of_ascii (list_ascii_of_string s).
Arguments str s%_string.

Definition nl : char := 10%N.   (* the line feed *)
Definition dq : char := 34%N.   (* the double quote *)

(** [l] is a prefix of [s]. *)
Fixpoint prefixb (l s : text) : bool :=
  match l, s with
  | [], _ => true
  | a :: l', b :: s' => N.eqb a b && prefixb l' s'
  | _ :: _, [] => false
  end.

(** ** The Unicode tables of the interpreter

    [\w], [\s], [re.IGNORECASE] and [str.lower] are Unicode aware.  On ASCII
    they are spelled out below; beyond ASCII they consult the interpreter's
    Unicode database, which is not part of the program and is taken as a
    parameter. *)

Class unicode := {
  uni_alnum : char -> bool;          (* str.isalnum of a code point >= 128 *)
  uni_space : char -> bool;          (* str.isspace of a code point >= 128 *)
  uni_ieq   : char -> char -> bool;  (* does the pattern letter match the code point >= 128 when case is ignored *)
  uni_lower : text -> text;          (* str.lower of a string that is not all ASCII *)
  uni_space_not_alnum : forall c, uni_space c = true -> uni_alnum c = false
}.

Definition is_ascii (c : char) : bool := (c <? 128)%N.

Definition in_range (lo hi c : char) : bool := ((lo <=? c) && (c <=? hi))%N.

Definition ascii_upper (c : char) : bool := in_range 65%N 90%N c.

Definition ascii_lower (c : char) : char := if ascii_upper c then (c + 32)%N else c.

(** [a-zA-Z0-9_] *)
Definition ascii_word (c : char) : bool :=
  in_range 97%N 122%N c || in_range 65%N 90%N c || in_range 48%N 57%N c || N.eqb c 95%N.

(** The ASCII characters for which str.isspace holds: tab, line feed,
    vertical tab, form feed, carriage return, the four separators
    0x1c-0x1f, and the space. *)
Definition ascii_space (c : char) : bool :=
  in_range 9%N 13%N c || in_range 28%N 32%N c.

(** ** Regular expressions *)

(** What one pattern position accepts. *)
Inductive cls :=
| Lit (c : char)            (* the character itself *)
| LitI (c : char)           (* the character, under re.IGNORECASE *)
| Word                      (* \w *)
| Space                     (* \s *)
| Dot (dotall : bool)       (* . , with or without re.DOTALL *)
| NoneOf (cs : list char).  (* [^...] *)

Inductive regex :=
| Chr (k : cls)
| Eps
| Seq (a b : regex)
| Alt (a b : regex)
| Star (greedy : bool) (a : regex)   (* a* and a*? *)
| Group (i : nat) (a : regex).       (* the i-th capturing group *)

Declare Scope re_scope.
Delimit Scope re_scope with re.
Bind Scope re_scope with regex.
Infix ";;" := Seq (at level 61, right associativity) : re_scope.

(** a+ *)
Definition plus (a : regex) : regex := Seq a (Star true a).

(** A literal run of characters. *)
Fixpoint lits (l : text) : regex :=
  match l with
  | [] => Eps
  | c :: l' => Seq (Chr (Lit c)) (lits l')
  end.

(** The same under re.IGNORECASE. *)
Fixpoint litsI (l : text) : regex :=
  match l with
  | [] => Eps
  | c :: l' => Seq (Chr (LitI c)) (litsI l')
  end.

(** The groups captured so far, latest first. *)
Notation caps := (list (nat * list N)) (only parsing).

Fixpoint group (i : nat) (c : caps) : text :=
  match c with
  | [] => []
  | (j, v) :: c' => if Nat.eqb i j then v else group i c'
  end.

(** A matcher state: the text still to be read and the captures. *)
Notation state := (list N * list (nat * list N))%type (only parsing).

(** A match: the matched text and its groups. *)
Notation found := (list N * list (nat * list N))%type (only parsing).

(** The repetition loop shared by [a*] and [a*?]: every iteration has to
    consume something, the greedy loop prefers one more iteration, the lazy one
    prefers to stop.  The fuel is the length of the text plus one and is never
    exhausted, since the text shrinks with every iteration. *)
Fixpoint iter (body : state -> list state) (greedy : bool) (fuel : nat)
         (st : state) : list state :=
  match fuel with
  | O => [st]
  | S f =>
      let more :=
        flat_map (fun st' =>
                    if length (fst st') <? length (fst st)
                    then iter body greedy f st' else [])
                 (body st) in
      if greedy then more ++ [st] else st :: more
  end.

(** A Unicode database with nothing beyond ASCII, for texts that are ASCII
    throughout: no table is consulted on them. *)
Definition ascii_only : unicode :=
  {| uni_alnum := fun _ => false;
     uni_space := fun _ => false;
     uni_ieq := fun _ _ => false;
     uni_lower := fun t => t;
     uni_space_not_alnum := fun _ _ => eq_refl |}.

Section Analyzer.

Context {U : unicode}.

Definition is_word (c : char) : bool :=
  if is_ascii c then ascii_word c else uni_alnum c.

Definition is_space (c : char) : bool :=
  if is_ascii c then ascii_space c else uni_space c.

(** Does character [c] of the text match the pattern letter [p] when case is
    ignored. *)
Definition ieq (p c : char) : bool :=
  if is_ascii c then N.eqb (ascii_lower c) (ascii_lower p) else uni_ieq p c.

Definition accepts (k : cls) (c : char) : bool :=
  match k with
  | Lit p => N.eqb p c
  | LitI p => ieq p c
  | Word => is_word c
  | Space => is_space c
  | Dot dotall => dotall || negb (N.eqb c nl)
  | NoneOf cs => negb (existsb (N.eqb c) cs)
  end.

(** All the ways [r] matches at the start of the text of [st], in the order in
    which a backtracking matcher tries them; each is given by the text that
    remains and the captures. *)
Fixpoint ms (r : regex) (st : state) {struct r} : list state :=
  match r with
  | Chr k =>
      match fst st with
      | c :: tl => if accepts k c then [(tl, snd st)] else []
      | [] => []
      end
  | Eps => [st]
  | Seq a b => flat_map (ms b) (ms a st)
  | Alt a b => ms a st ++ ms b st
  | Star g a => iter (ms a) g (S (length (fst st))) st
  | Group i a =>
      map (fun st' =>
             (fst st',
              (i, firstn (length (fst st) - length (fst st')) (fst st)) :: snd st'))
          (ms a st)
  end.

(** The match the pattern has at the start of [s], if any. *)
Definition match_at (p : regex) (s : text) : option state :=
  hd_error (ms p (s, [])).

(** The scan of [re.findall]: try every position from left to right; after a
    match of [n] characters resume right behind it ([skip] counts the
    positions still covered by the last match).  After an empty match the scan
    moves on by one character; the patterns of the script never match the
    empty string. *)
Fixpoint scan (p : regex) (s : text) (skip : nat) {struct s} : list found :=
  match skip with
  | S k => match s with [] => [] | _ :: tl => scan p tl k end
  | O =>
      match match_at p s with
      | Some (rest, c) =>
          let n := length s - length rest in
          (firstn n s, c) :: match s with [] => [] | _ :: tl => scan p tl (pred n) end
      | None => match s with [] => [] | _ :: tl => scan p tl 0 end
      end
  end.

(** [re.findall] for a pattern without groups, with one group and with two. *)
Definition findall0 (p : regex) (s : text) : list text := map fst (scan p s 0).
Definition findall1 (p : regex) (s : text) : list text :=
  map (fun m => group 1 (snd m)) (scan p s 0).
Definition findall2 (p : regex) (s : text) : list (text * text) :=
  map (fun m => (group 1 (snd m), group 2 (snd m))) (scan p s 0).

(** ** The recognizers of [analyze_test_file] *)

Local Open Scope re_scope.

Definition ws1 : regex := plus (Chr Space).                (* \s+ *)
Definition word1 : regex := plus (Chr Word).               (* \w+ *)

(** @Test\s+(?:@\w+\(.*?\)\s+)*(?:@\w+\s+)*\w+\s+void\s+(\w+)  with
    re.MULTILINE | re.DOTALL *)
Definition test_methods_re : regex :=
  lits (str "@Test") ;; ws1 ;;
  Star true (lits (str "@") ;; word1 ;; lits (str "(") ;;
             Star false (Chr (Dot true)) ;; lits (str ")") ;; ws1) ;;
  Star true (lits (str "@") ;; word1 ;; ws1) ;;
  word1 ;; ws1 ;; lits (str "void") ;; ws1 ;; Group 1 word1.

(** @Nested\s+@DisplayName\(Q([^Q]+)Q\)\s+class\s+(\w+)  where Q stands for
    the double quote character *)
Definition nested_classes_re : regex :=
  lits (str "@Nested") ;; ws1 ;; lits (str "@DisplayName(") ;; Chr (Lit dq) ;;
  Group 1 (plus (Chr (NoneOf [dq]))) ;; Chr (Lit dq) ;; lits (str ")") ;; ws1 ;;
  lits (str "class") ;; ws1 ;; Group 2 word1.

(** private\s+\w+.*?\s+(\w+)\([^)]*\)\s*\{ *)
Definition helper_methods_re : regex :=
  lits (str "private") ;; ws1 ;; word1 ;; Star false (Chr (Dot false)) ;; ws1 ;;
  Group 1 word1 ;; lits (str "(") ;; Star true (Chr (NoneOf (str ")"))) ;;
  lits (str ")") ;; Star true (Chr Space) ;; lits (str "{").

(** import\s+([^;]+); *)
Definition imports_re : regex :=
  lits (str "import") ;; ws1 ;; Group 1 (plus (Chr (NoneOf (str ";")))) ;;
  lits (str ";").

(** assert\w+\( *)
Definition assertions_re : regex :=
  lits (str "assert") ;; word1 ;; lits (str "(").

(** @Timeout *)
Definition timeouts_re : regex := lits (str "@Timeout").

(** CompletableFuture|ExecutorService|CountDownLatch|virtual.*thread  with
    re.IGNORECASE *)
Definition concurrent_patterns_re : regex :=
  Alt (litsI (str "CompletableFuture"))
 (Alt (litsI (str "ExecutorService"))
 (Alt (litsI (str "CountDownLatch"))
      (litsI (str "virtual") ;; Star true (Chr (Dot false)) ;; litsI (str "thread")))).

(** @ExtendWith\(MockitoExtension\.class\) *)
Definition mockito_re : regex := lits (str "@ExtendWith(MockitoExtension.class)").

(** What the recognizers extract from the text (lines 20-42 of the script). *)
Record analysis := {
  test_methods : list text;
  nested_classes : list (text * text);
  helper_methods : list text;
  imports : list text;
  assertions : nat;
  timeouts : nat;
  concurrent_patterns : nat;
  mockito_usage : nat
}.

Definition analyze (content : text) : analysis :=
  {| test_methods := findall1 test_methods_re content;
     nested_classes := findall2 nested_classes_re content;
     helper_methods := findall1 helper_methods_re content;
     imports := findall1 imports_re content;
     assertions := length (findall0 assertions_re content);
     timeouts := length (findall0 timeouts_re content);
     concurrent_patterns := length (findall0 concurrent_patterns_re content);
     mockito_usage := length (findall0 mockito_re content) |}.

(** ** The report *)

(** Standard output, as the sequence of lines written by [print]; each call of
    [print] writes its argument followed by a line feed. *)
Definition stdout := list text.

Definition print (line : text) (out : stdout) : stdout := out ++ [line].

(** The characters that reach the terminal. *)
Definition rendered (out : stdout) : text := flat_map (fun l => l ++ [nl]) out.

(** A block of statements that writes to standard output. *)
Definition action := stdout -> stdout.

Definition and_then (a b : action) : action := fun out => b (a out).
Infix ">>" := and_then (at level 65, left associativity).

Definition skip : action := fun out => out.

(** for x in xs: body *)
Definition for_each (A : Type) (xs : list A) (body : A -> action) : action :=
  fun out => fold_left (fun o x => body x o) xs out.

(** enumerate(xs) *)
Definition enumerate (A : Type) (xs : list A) : list (nat * A) :=
  combine (seq 0 (length xs)) xs.

(** str(n) for a length or count. *)
Definition dec (n : nat) : text := str (NilZero.string_of_uint (Nat.to_uint n)).

(** s.lower() *)
Definition lower (s : text) : text :=
  if forallb is_ascii s then map ascii_lower s else uni_lower s.

(** needle in hay *)
Fixpoint contains (needle hay : text) : bool :=
  prefixb needle hay ||
  match hay with
  | [] => false
  | _ :: tl => contains needle tl
  end.

Definition banner : text := repeat 61%N 60.   (* "=" * 60 *)

Definition print_heading : action :=
  print banner >>
  print (str "CONCURRENTDUPLICATEFINDER TEST ANALYSIS") >>
  print banner.

Definition print_structure (r : analysis) : action :=
  print (nl :: str "[TEST STRUCTURE]:") >>
  print (str "   * Total test methods: " ++ dec (length (test_methods r))) >>
  print (str "   * Nested test classes: " ++ dec (length (nested_classes r))) >>
  print (str "   * Helper methods: " ++ dec (length (helper_methods r))) >>
  print (str "   * Test imports: " ++ dec (length (imports r))).

Definition print_coverage (r : analysis) : action :=
  print (nl :: str "[TEST COVERAGE]:") >>
  print (str "   * Assertion statements: " ++ dec (assertions r)) >>
  print (str "   * Timeout constraints: " ++ dec (timeouts r)) >>
  print (str "   * Concurrency patterns: " ++ dec (concurrent_patterns r)) >>
  print (str "   * Mockito integration: " ++
         (if 0 <? mockito_usage r then str "Yes" else str "No")).

Definition print_nested (r : analysis) : action :=
  print (nl :: str "[NESTED TEST CLASSES]:") >>
  for_each (nested_classes r)
    (fun '(display_name, class_name) =>
       print (str "   * " ++ class_name ++ str ": " ++ display_name)).

Definition print_key_methods (r : analysis) : action :=
  print (nl :: str "[KEY TEST METHODS] (sample):") >>
  for_each (enumerate (firstn 10 (test_methods r)))
    (fun '(i, method) => print (str "   * " ++ method)) >>
  (if 10 <? length (test_methods r)
   then print (str "   ... and " ++ dec (length (test_methods r) - 10) ++ str " more")
   else skip).

Definition relevant (h : text) : bool :=
  contains (str "test") (lower h) || contains (str "create") (lower h) ||
  contains (str "mock") (lower h).

Definition print_helpers (r : analysis) : action :=
  print (nl :: str "[HELPER METHODS]:") >>
  let relevant_helpers := filter relevant (helper_methods r) in
  for_each (firstn 5 relevant_helpers)
    (fun helper => print (str "   * " ++ helper)).

Definition categories : list text :=
  [ str "Constructor and Configuration";
    str "Empty and Null Input Handling";
    str "Exact Duplicate Detection";
    str "Metadata Duplicate Detection";
    str "Size-based Duplicate Detection";
    str "Concurrent Processing";
    str "Deduplication and Priority";
    str "Statistics Generation";
    str "Resource Management";
    str "Edge Cases and Error Handling";
    str "Performance Testing" ].

Definition print_categories : action :=
  print (nl :: str "[TEST CATEGORIES COVERED]:") >>
  for_each categories (fun category => print (str "   + " ++ category)).

Definition features : list text :=
  [ str "Virtual Thread Execution";
    str "Async Operation Handling";
    str "Multiple Concurrent Finders";
    str "Exception Propagation";
    str "Resource Cleanup";
    str "Thread Safety" ].

Definition print_features : action :=
  print (nl :: str "[CONCURRENCY FEATURES TESTED]:") >>
  for_each features (fun feature => print (str "   + " ++ feature)).

Definition print_performance (r : analysis) : action :=
  print (nl :: str "[PERFORMANCE CHARACTERISTICS]:") >>
  print (str "   * Timeout-constrained tests: " ++ dec (timeouts r)) >>
  print (str "   * Large dataset testing: YES") >>
  print (str "   * Memory efficiency testing: YES") >>
  print (str "   * Concurrent processing validation: YES").

Definition print_summary (r : analysis) : action :=
  print (nl :: str "[SUMMARY]:") >>
  print (str "   The test suite provides comprehensive coverage of the") >>
  print (str "   ConcurrentDuplicateFinder class with " ++
         dec (length (test_methods r)) ++ str " test methods") >>
  print (str "   organized into " ++ dec (length (nested_classes r)) ++
         str " logical test groupings.") >>
  print (str "   It includes concurrency testing, performance validation,") >>
  print (str "   error handling, and edge case coverage.").

(** Lines 44-119: everything printed once the file has been analyzed. *)
Definition report (r : analysis) : action :=
  print_heading >> print_structure r >> print_coverage r >> print_nested r >>
  print_key_methods r >> print_helpers r >> print_categories >>
  print_features >> print_performance r >> print_summary r >> print banner.

(** ** The whole run *)

(** What the file system holds at a path: a file whose text can be read, or
    something that exists but on which [open] or [read] raise (a directory, a
    file without read permission, bytes that are not UTF-8). *)
Inductive node :=
| Readable (content : text)
| Unreadable.

Definition filesystem := text -> option node.

(** How the call ends. *)
Inductive outcome :=
| Returned     (* the function returns and the process ends normally *)
| Raised.      (* an exception escapes: traceback and a failing exit status *)

Definition test_file_path : text :=
  str "src/test/java/com/musicorganizer/processor/ConcurrentDuplicateFinderTest.java".

Definition analyze_test_file (fs : filesystem) : outcome * stdout :=
  match fs test_file_path with
  | None => (Returned, print (str "Test file not found: " ++ test_file_path) [])
  | Some Unreadable => (Raised, [])
  | Some (Readable content) => (Returned, report (analyze content) [])
  end.

(** ** What the claims speak about *)

Definition is_none (A : Type) (o : option A) : bool :=
  match o with None => true | Some _ => false end.

(** The pattern matches nowhere in the text. *)
Definition no_match (p : regex) (t : text) : bool :=
  forallb (fun i => is_none (match_at p (skipn i t))) (seq 0 (S (length t))).

Definition recognizers : list regex :=
  [ test_methods_re; nested_classes_re; helper_methods_re; imports_re;
    assertions_re; timeouts_re; concurrent_patterns_re; mockito_re ].

(** A text without a single recognizable construct. *)
Definition nothing_recognized (content : text) : bool :=
  forallb (fun p => no_match p content) recognizers.

(** The flag the report shows as Yes or No ([mockito_usage > 0]). *)
Definition uses_mocking_framework (r : analysis) : bool := 0 <? mockito_usage r.

(** [needle] occurs in [hay] as a contiguous run. *)
Definition substring (needle hay : text) : Prop :=
  exists a b, hay = a ++ needle ++ b.

(** The block only adds lines behind what has been written already. *)
Definition appends (a : action) : Prop := forall out, a out = out ++ a [].

(** The pattern consumes at least one character whenever it matches. *)
Fixpoint nonnull (r : regex) : bool :=
  match r with
  | Chr _ => true
  | Eps => false
  | Seq a b => nonnull a || nonnull b
  | Alt a b => nonnull a && nonnull b
  | Star _ _ => false
  | Group _ a => nonnull a
  end.

(** No position of the pattern accepts a line feed (and nothing is
    captured): a match of such a pattern lies within one line. *)
Fixpoint nlfree (r : regex) : bool :=
  match r with
  | Chr k => negb (accepts k nl)
  | Eps => true
  | Seq a b => nlfree a && nlfree b
  | Alt a b => nlfree a && nlfree b
  | Star _ a => nlfree a
  | Group _ _ => false
  end.

(** The numbers of the groups of a pattern. *)
Fixpoint groups (r : regex) : list nat :=
  match r with
  | Chr _ | Eps => []
  | Seq a b | Alt a b => groups a ++ groups b
  | Star _ a => groups a
  | Group i a => i :: groups a
  end.

(** The same state with more text behind it. *)
Definition extend (tail : text) (st : state) : state := (fst st ++ tail, snd st).

(** A repetition over the class [k] stops in front of [rest]. *)
Definition stops (k : cls) (rest : text) : bool :=
  match rest with
  | [] => true
  | x :: _ => negb (accepts k x)
  end.

(** A non-empty run of whitespace. *)
Definition blank (w : text) : bool :=
  match w with [] => false | _ => forallb is_space w end.

(** A non-empty run of word characters. *)
Definition identifier (w : text) : bool :=
  match w with [] => false | _ => forallb is_word w end.

(** A non-empty run without a double quote. *)
Definition quotable (w : text) : bool :=
  match w with [] => false | _ => forallb (fun c => negb (N.eqb c dq)) w end.

(** No occurrence of the marker [m] starts inside [g], where [g] is followed
    by [rest]. *)
Fixpoint marker_free (m g rest : text) : bool :=
  match g with
  | [] => true
  | _ :: g' => negb (prefixb m (g ++ rest)) && marker_free m g' rest
  end.

(** "\n".join(ls) *)
Fixpoint unlines (ls : list text) : text :=
  match ls with
  | [] => []
  | [l] => l
  | l :: ls' => l ++ nl :: unlines ls'
  end.

(** How often the pattern is found in the text: len(re.findall(p, t)). *)
Definition count (p : regex) (t : text) : nat := length (findall0 p t).

(** Every line that is dropped holds no match of the pattern. *)
Definition dropped_hold_none (p : regex) (keep : text -> bool) (ls : list text) : bool :=
  forallb (fun l => keep l || no_match p l) ls.

(** The captures [new] belong to groups listed in [G]. *)
Definition only_groups (G : list nat) (new : caps) : Prop :=
  forall i v, In (i, v) new -> In i G.

(** A nested-group declaration as it stands in the text: what precedes it
    since the previous declaration ([decl_gap]), the whitespace between its
    tokens, the quoted display name and the class identifier. *)
Record group_decl := {
  decl_gap : text;
  decl_sp1 : text;
  decl_display_name : text;
  decl_sp2 : text;
  decl_sp3 : text;
  decl_class_name : text
}.

(** The declaration, followed by [rest]. *)
Definition decl_text (d : group_decl) (rest : text) : text :=
  str "@Nested" ++ decl_sp1 d ++ str "@DisplayName(" ++
  dq :: decl_display_name d ++ dq :: str ")" ++ decl_sp2 d ++
  str "class" ++ decl_sp3 d ++ decl_class_name d ++ rest.

(** A text with the declarations [ds] in this order, ending in [tail]. *)
Fixpoint groups_text (ds : list group_decl) (tail : text) : text :=
  match ds with
  | [] => tail
  | d :: ds' => decl_gap d ++ decl_text d (groups_text ds' tail)
  end.

(** The declaration is written as the grouping pattern expects it and no
    other group marker starts in the gap before it. *)
Definition well_formed_decl (d : group_decl) (rest : text) : bool :=
  blank (decl_sp1 d) && quotable (decl_display_name d) &&
  blank (decl_sp2 d) && blank (decl_sp3 d) &&
  identifier (decl_class_name d) && stops Word rest &&
  marker_free (str "@Nested") (decl_gap d) (decl_text d rest).

Fixpoint well_formed (ds : list group_decl) (tail : text) : bool :=
  match ds with
  | [] => marker_free (str "@Nested") tail []
  | d :: ds' =>
      well_formed_decl d (groups_text ds' tail) && well_formed ds' tail
  end.

(** ** Further notions about the recognizers *)

(** At how many positions of the text the marker [m] starts. *)
Fixpoint occurrences (m s : text) : nat :=
  (if prefixb m s then 1 else 0) +
  match s with
  | [] => 0
  | _ :: tl => occurrences m tl
  end.

(** An ASCII small letter is made a capital letter, every other character is
    left as it is. *)
Definition ascii_to_upper (c : char) : char :=
  if in_range 97%N 122%N c then (c - 32)%N else c.

Definition upper_state (st : state) : state :=
  (map ascii_to_upper (fst st), snd st).

(** Every position of the pattern either ignores case or is a dot, and
    nothing is captured. *)
Fixpoint case_blind (r : regex) : bool :=
  match r with
  | Chr (LitI _) | Chr (Dot _) => true
  | Chr _ => false
  | Eps => true
  | Seq a b => case_blind a && case_blind b
  | Alt a b => case_blind a && case_blind b
  | Star _ a => case_blind a
  | Group _ _ => false
  end.

(** The groups that every match of the pattern sets. *)
Fixpoint must_groups (r : regex) : list nat :=
  match r with
  | Seq a b => must_groups a ++ must_groups b
  | Group i a => i :: must_groups a
  | _ => []
  end.

(** Whatever a group of the pattern captures satisfies [Q]. *)
Fixpoint groups_ok (Q : nat -> text -> Prop) (r : regex) : Prop :=
  match r with
  | Chr _ | Eps => True
  | Seq a b | Alt a b => groups_ok Q a /\ groups_ok Q b
  | Star _ a => groups_ok Q a
  | Group i a =>
      (forall s c st' w, In st' (ms a (s, c)) -> s = w ++ fst st' -> Q i w) /\
      groups_ok Q a
  end.

(** The semicolon. *)
Definition semicolon : char := 59%N.

(** An annotation with parenthesized arguments, and the whitespace behind
    it. *)
Record arg_annotation := {
  aa_name : text;
  aa_args : text;
  aa_sp : text
}.

(** An annotation without arguments, and the whitespace behind it. *)
Record plain_annotation := {
  pa_name : text;
  pa_sp : text
}.

(** The closing parenthesis. *)
Definition rparen : char := 41%N.

(** The annotations as they stand in the text, followed by [rest]. *)
Fixpoint arg_annotations_text (l : list arg_annotation) (rest : text) : text :=
  match l with
  | [] => rest
  | a :: l' =>
      str "@" ++ aa_name a ++ str "(" ++ aa_args a ++ str ")" ++ aa_sp a ++
      arg_annotations_text l' rest
  end.

Fixpoint plain_annotations_text (l : list plain_annotation) (rest : text) : text :=
  match l with
  | [] => rest
  | a :: l' => str "@" ++ pa_name a ++ pa_sp a ++ plain_annotations_text l' rest
  end.

(** The name is an identifier, the arguments hold no closing parenthesis,
    whitespace follows. *)
Definition arg_annotation_ok (a : arg_annotation) : bool :=
  identifier (aa_name a) &&
  forallb (fun c => negb (N.eqb c rparen)) (aa_args a) &&
  blank (aa_sp a).

Definition plain_annotation_ok (a : plain_annotation) : bool :=
  identifier (pa_name a) && blank (pa_sp a).



(** How many line feeds the text holds. *)
Definition line_feeds (t : text) : nat := length (filter (N.eqb nl) t).

End Analyzer.

(** ** Sample inputs *)

(** A source text with nothing the recognizers look for. *)
Definition plain_text : text := str "public class Plain { int x; }".

(** A test method without a modifier in front of void. *)
Definition modifierless_test : text := str "@Test void foo() {}".

(** A group declaration whose display name is the empty string. *)
Definition empty_name_decl : group_decl :=
  {| decl_gap := [];
     decl_sp1 := str " ";
     decl_display_name := [];
     decl_sp2 := str " ";
     decl_sp3 := str " ";
     decl_class_name := str "A" |}.

(** The backslash. *)
Definition bs : char := 92%N.

(** A group declaration whose display name holds two escaped double quotes:
    the quoted string is say, backslash, quote, hi, backslash, quote. *)
Definition escaped_quotes_text : text :=
  str "@Nested @DisplayName(" ++ dq :: str "say " ++ bs :: dq :: str "hi" ++
  bs :: dq :: dq :: str ") class B {}".

(** Two group declarations inside an outer class. *)
Definition two_groups : list group_decl :=
  [ {| decl_gap := str "class Outer {" ++ [nl];
       decl_sp1 := [nl];
       decl_display_name := str "Exact duplicates";
       decl_sp2 := [nl];
       decl_sp3 := str " ";
       decl_class_name := str "ExactTests" |};
    {| decl_gap := str " { @Test public void a() {} }" ++ [nl];
       decl_sp1 := str " ";
       decl_display_name := str "Metadata duplicates";
       decl_sp2 := str " ";
       decl_sp3 := str " ";
       decl_class_name := str "MetadataTests" |} ].

(** A file whose only import names a concurrency type. *)
Definition import_of_future : list text :=
  [ str "import java.util.concurrent.CompletableFuture;";
    str "class T {";
    str "}" ].

(** A file in which an import line stands between a test marker and the
    method it would otherwise mark. *)
Definition import_after_marker : list text :=
  [ str "@Test";
    str "import x;";
    str "public void foo() {}" ].

(** A file whose import names no concurrency type, with one use of such a
    type further down. *)
Definition import_of_list : list text :=
  [ str "import java.util.List;";
    str "class T {";
    str "  CompletableFuture<Void> f;";
    str "  void g() { assertTrue(f.isDone()); }";
    str "}" ].

(** The lines that do not start with the word import. *)
Definition not_import (l : text) : bool := negb (prefixb (str "import") l).

(** An analysis with the given test-method names and nothing else. *)
Definition with_test_methods (names : list text) : analysis :=
  {| test_methods := names; nested_classes := []; helper_methods := [];
     imports := []; assertions := 0; timeouts := 0; concurrent_patterns := 0;
     mockito_usage := 0 |}.

Definition fifteen_names : list text :=
  map (fun i => str "test" ++ dec i) (seq 1 15).

Definition three_names : list text := [str "testA"; str "testB"; str "testC"].

(** A file system without the test file. *)
Definition empty_fs : filesystem := fun _ => None.

(** A small test source with one of everything. *)
Definition sample_source : text :=
  unlines
    [ str "import java.util.List;";
      str "class SampleTest {";
      str "  @Nested @DisplayName(" ++ dq :: str "Exact duplicates" ++ dq :: str ") class ExactTests {";
      str "    @Test";
      str "    public void findsDuplicates() { assertTrue(ok); }";
      str "  }";
      str "  private static Path createTempFile(String name) { return null; }";
      str "}" ].

(** Annotations as they may stand between @Test and a method: two with
    arguments, then one without. *)
Definition sample_arg_annotations : list arg_annotation :=
  [ {| aa_name := str "Timeout"; aa_args := str "value = 5"; aa_sp := [nl] |};
    {| aa_name := str "DisplayName";
       aa_args := dq :: str "finds duplicates" ++ [dq];
       aa_sp := [nl] |} ].

Definition sample_plain_annotations : list plain_annotation :=
  [ {| pa_name := str "Disabled"; pa_sp := str " " |} ].

Section Properties.

Context {U : unicode}.

(** ** Literal patterns *)

Lemma prefixb_app (l s : text) : prefixb l (l ++ s) = true.
Proof.
  induction l as [|a l IH]; simpl; [reflexivity|].
  rewrite N.eqb_refl. exact IH.
Qed.

Lemma prefixb_split (l s : text) :
  prefixb l s = true -> s = l ++ skipn (length l) s.
Proof.
  revert s. induction l as [|a l IH]; intros [|b s]; simpl; try discriminate; auto.
  intros H. apply andb_prop in H as [H1 H2]. apply N.eqb_eq in H1. subst b.
  f_equal. auto.
Qed.

Lemma skipn_length_app (A : Type) (l s : list A) : skipn (length l) (l ++ s) = s.
Proof. induction l; simpl; auto. Qed.

Lemma ms_lits (l s : text) (c : caps) :
  ms (lits l) (s, c) = if prefixb l s then [(skipn (length l) s, c)] else [].
Proof.
  revert s. induction l as [|a l IH]; intros s; simpl; [reflexivity|].
  destruct s as [|b s]; simpl; [reflexivity|].
  destruct (N.eqb a b); simpl; [|reflexivity].
  rewrite IH, app_nil_r. reflexivity.
Qed.

Lemma ms_seq_lits (l : text) (r : regex) (s : text) (c : caps) :
  ms (Seq (lits l) r) (s, c) =
  if prefixb l s then ms r (skipn (length l) s, c) else [].
Proof.
  cbn [ms]. rewrite ms_lits.
  destruct (prefixb l s); simpl; [apply app_nil_r | reflexivity].
Qed.

Lemma match_at_lits (l s : text) :
  match_at (lits l) s =
  if prefixb l s then Some (skipn (length l) s, []) else None.
Proof.
  unfold match_at. rewrite ms_lits. destruct (prefixb l s); reflexivity.
Qed.

(** ** The scan *)

Lemma scan_none (p : regex) (s : text) :
  (forall i, match_at p (skipn i s) = None) -> forall k, scan p s k = [].
Proof.
  induction s as [|a s IH]; intros H k.
  - destruct k; cbn [scan]; [|reflexivity].
    pose proof (H 0) as H0. cbn [skipn] in H0. rewrite H0. reflexivity.
  - destruct k; cbn [scan].
    + pose proof (H 0) as H0. cbn [skipn] in H0. rewrite H0.
      apply IH. intros i. apply (H (S i)).
    + apply IH. intros i. apply (H (S i)).
Qed.

Lemma no_match_spec (p : regex) (t : text) :
  no_match p t = true -> forall i, match_at p (skipn i t) = None.
Proof.
  unfold no_match. rewrite forallb_forall. intros H i.
  assert (Hle : forall j, j <= length t -> match_at p (skipn j t) = None).
  { intros j Hj. specialize (H j).
    destruct (match_at p (skipn j t)) as [st|]; [|reflexivity].
    assert (F : is_none (Some st) = true) by (apply H; apply in_seq; lia).
    discriminate F. }
  destruct (le_lt_dec i (length t)) as [Hi|Hi]; [auto|].
  rewrite skipn_all2 by lia. rewrite <- (skipn_all t). auto.
Qed.

Lemma scan_nonempty (p : regex) (s : text) :
  scan p s 0 <> [] <-> exists i, match_at p (skipn i s) <> None.
Proof.
  split.
  - generalize 0 as k. induction s as [|a s IH]; intros k H.
    + destruct k; cbn [scan] in H; [|congruence].
      exists 0. cbn [skipn]. intros E. rewrite E in H. congruence.
    + destruct k; cbn [scan] in H.
      * destruct (match_at p (a :: s)) eqn:E.
        -- exists 0. cbn [skipn]. congruence.
        -- destruct (IH _ H) as [i Hi]. exists (S i). exact Hi.
      * destruct (IH _ H) as [i Hi]. exists (S i). exact Hi.
  - intros [i Hi]. revert i Hi. induction s as [|a s IH]; intros i Hi.
    + rewrite skipn_nil in Hi. cbn [scan].
      destruct (match_at p []) as [[rest c]|]; congruence.
    + cbn [scan]. destruct (match_at p (a :: s)) as [[rest c]|] eqn:E.
      * discriminate.
      * destruct i as [|i]; [cbn [skipn] in Hi; congruence|].
        apply (IH i). exact Hi.
Qed.

(** ** C1 *)

(** C1.  A text in which none of the eight recognizer patterns matches
    anywhere is analyzed to the empty result: the four sequences are empty,
    the three counts are 0 and the mocking flag is false; this is an ordinary
    result, the run returns normally and goes on to print its report. *)
Theorem analyze_nothing_recognized (content : text) :
  nothing_recognized content = true ->
  test_methods (analyze content) = [] /\
  nested_classes (analyze content) = [] /\
  helper_methods (analyze content) = [] /\
  imports (analyze content) = [] /\
  assertions (analyze content) = 0 /\
  timeouts (analyze content) = 0 /\
  concurrent_patterns (analyze content) = 0 /\
  uses_mocking_framework (analyze content) = false /\
  forall fs, fs test_file_path = Some (Readable content) ->
             analyze_test_file fs = (Returned, report (analyze content) []).
Proof.
  unfold nothing_recognized, recognizers. cbn [forallb].
  intros H.
  repeat (apply andb_prop in H; destruct H as [?H H]).
  assert (E : forall p, no_match p content = true -> scan p content 0 = []).
  { intros p Hp. apply scan_none. apply no_match_spec. exact Hp. }
  unfold uses_mocking_framework, analyze_test_file, analyze,
    findall0, findall1, findall2.
  cbn [test_methods nested_classes helper_methods imports assertions timeouts
       concurrent_patterns mockito_usage].
  rewrite !E by assumption.
  repeat split.
  intros fs Hfs. rewrite Hfs. cbn iota. rewrite !E by assumption. reflexivity.
Qed.

(** ** The report only appends to standard output *)

Lemma appends_print (line : text) : appends (print line).
Proof. intros out. reflexivity. Qed.

Lemma appends_skip : appends skip.
Proof. intros out. unfold skip. symmetry. apply app_nil_r. Qed.

Lemma appends_then (a b : action) :
  appends a -> appends b -> appends (and_then a b).
Proof.
  intros Ha Hb out. unfold and_then.
  rewrite Hb, Ha, (Hb (a [])). apply eq_sym, app_assoc.
Qed.

Lemma appends_for_each (A : Type) (xs : list A) (body : A -> action) :
  (forall x, appends (body x)) -> appends (for_each xs body).
Proof.
  intros Hb. unfold for_each.
  induction xs as [|x xs IH]; intros out; cbn [fold_left].
  - symmetry. apply app_nil_r.
  - rewrite IH, (IH (body x [])), (Hb x out). apply eq_sym, app_assoc.
Qed.


Ltac appends_step :=
  lazymatch goal with
  | |- appends (and_then _ _) => apply appends_then
  | |- appends (print _) => apply appends_print
  | |- appends skip => apply appends_skip
  | |- appends (for_each _ _) => apply appends_for_each; intros ?
  | |- appends (if ?c then _ else _) => destruct c
  | |- appends (let '(_, _) := ?x in _) => destruct x
  end.

Lemma appends_report (r : analysis) : appends (report r).
Proof.
  unfold report, print_heading, print_structure, print_coverage, print_nested,
    print_key_methods, print_helpers, print_categories, print_features,
    print_performance, print_summary.
  repeat appends_step.
Qed.

Lemma rendered_app (a b : stdout) : rendered (a ++ b) = rendered a ++ rendered b.
Proof. apply flat_map_app. Qed.

Lemma firstn_min_length (A : Type) (k : nat) (l : list A) :
  firstn k l = firstn (min k (length l)) l.
Proof.
  destruct (le_lt_dec k (length l)) as [H|H].
  - rewrite Nat.min_l by exact H. reflexivity.
  - rewrite Nat.min_r by lia. rewrite firstn_all. apply firstn_all2. lia.
Qed.

Lemma for_each_enumerate (A : Type) (f : A -> text) (l : list A) (out : stdout) :
  for_each (enumerate l)
           (fun im : nat * A => let '(i, m) := im in print (f m)) out =
  out ++ map f l.
Proof.
  unfold for_each, enumerate. generalize 0 as k. revert out.
  induction l as [|x l IH]; intros out k; cbn [length seq combine fold_left map].
  - symmetry. apply app_nil_r.
  - rewrite IH. unfold print. rewrite <- app_assoc. reflexivity.
Qed.


(** ** C5 *)

(** C5.  The Key Test Methods section is its title line followed by the first
    min(10, n) test-method names, in the order recognized, one per line; when
    there are more than 10 names one further line states how many remain
    (n - 10), otherwise there is no such line.  In particular 15 names give the
    first 10 and the line that says 5 more, and 3 names give just the 3. *)
Theorem key_test_methods_sample (r : analysis) (out : stdout) :
  print_key_methods r out =
    out ++ [nl :: str "[KEY TEST METHODS] (sample):"]
        ++ map (fun m => str "   * " ++ m)
               (firstn (min 10 (length (test_methods r))) (test_methods r))
        ++ (if 10 <? length (test_methods r)
            then [str "   ... and " ++ dec (length (test_methods r) - 10) ++ str " more"]
            else [])
  /\ (length (test_methods r) = 15 ->
      print_key_methods r out =
        out ++ [nl :: str "[KEY TEST METHODS] (sample):"]
            ++ map (fun m => str "   * " ++ m) (firstn 10 (test_methods r))
            ++ [str "   ... and 5 more"])
  /\ (length (test_methods r) = 3 ->
      print_key_methods r out =
        out ++ [nl :: str "[KEY TEST METHODS] (sample):"]
            ++ map (fun m => str "   * " ++ m) (test_methods r)).
Proof.
  assert (G : print_key_methods r out =
    out ++ [nl :: str "[KEY TEST METHODS] (sample):"]
        ++ map (fun m => str "   * " ++ m)
               (firstn (min 10 (length (test_methods r))) (test_methods r))
        ++ (if 10 <? length (test_methods r)
            then [str "   ... and " ++ dec (length (test_methods r) - 10) ++ str " more"]
            else [])).
  { unfold print_key_methods, and_then.
    rewrite (for_each_enumerate (fun m => str "   * " ++ m)).
    rewrite <- firstn_min_length.
    destruct (10 <? length (test_methods r)); unfold print, skip;
      rewrite <- ?app_assoc; [reflexivity|].
    rewrite app_nil_r. reflexivity. }
  split; [exact G|]. split; intros E; rewrite G, E.
  - reflexivity.
  - cbn [Nat.ltb Nat.leb app]. rewrite app_nil_r.
    rewrite <- E, Nat.min_r by lia. rewrite firstn_all. reflexivity.
Qed.

(** ** C7 *)






(** ** C9 *)

(** C9.  Formatting a result writes the same lines whatever has been written
    before: the report is a function of the result alone, so formatting the
    same result twice puts the same characters on the terminal twice. *)
Theorem report_deterministic (r : analysis) (out : stdout) :
  report r out = out ++ report r [] /\
  rendered (report r (report r out)) =
    rendered out ++ rendered (report r []) ++ rendered (report r []).
Proof.
  split.
  - apply appends_report.
  - rewrite (appends_report r (report r out)), (appends_report r out).
    rewrite !rendered_app, <- app_assoc. reflexivity.
Qed.

(** ** C6 *)

(** C6.  When nothing exists at the path of the test file, the run prints the
    one line that says so and returns normally: nothing is read, no section of
    the report is printed, no exception escapes. *)
Theorem missing_file (fs : filesystem) :
  fs test_file_path = None ->
  analyze_test_file fs =
    (Returned, [str "Test file not found: " ++ test_file_path]).
Proof.
  intros H. unfold analyze_test_file. rewrite H. reflexivity.
Qed.

(** ** C8 *)

Lemma length_pos_iff (A : Type) (l : list A) : (0 <? length l) = true <-> l <> [].
Proof.
  destruct l; cbn; split; intros; congruence.
Qed.

Lemma occurs_iff_prefix_somewhere (l s : text) :
  substring l s <-> exists i, prefixb l (skipn i s) = true.
Proof.
  split.
  - intros (a & b & E). exists (length a). subst s.
    rewrite skipn_length_app. apply prefixb_app.
  - intros [i H]. exists (firstn i s), (skipn (length l) (skipn i s)).
    rewrite <- (prefixb_split _ _ H). symmetry. apply firstn_skipn.
Qed.

(** C8.  The mocking flag of the analysis is true exactly when the text
    contains the annotation @ExtendWith(MockitoExtension.class) literally, and
    the Test Coverage section ends with the flag shown as Yes when it is true
    and as No when it is false. *)
Theorem mocking_flag (content : text) (r : analysis) (out : stdout) :
  (uses_mocking_framework (analyze content) = true <->
   substring (str "@ExtendWith(MockitoExtension.class)") content) /\
  print_coverage r out =
    out ++ [ nl :: str "[TEST COVERAGE]:";
             str "   * Assertion statements: " ++ dec (assertions r);
             str "   * Timeout constraints: " ++ dec (timeouts r);
             str "   * Concurrency patterns: " ++ dec (concurrent_patterns r);
             str "   * Mockito integration: " ++
               (if uses_mocking_framework r then str "Yes" else str "No") ].
Proof.
  split.
  - unfold uses_mocking_framework, analyze, findall0.
    cbn [mockito_usage]. rewrite length_map, length_pos_iff, scan_nonempty.
    rewrite occurs_iff_prefix_somewhere. unfold mockito_re.
    split; intros [i H]; exists i; rewrite match_at_lits in *;
      destruct (prefixb _ (skipn i content)); congruence.
  - unfold print_coverage, and_then, print, uses_mocking_framework.
    rewrite <- !app_assoc. reflexivity.
Qed.

(** ** What a match leaves behind *)

Lemma in_ms_seq (a b : regex) (st st' : state) :
  In st' (ms (Seq a b) st) <-> exists x, In x (ms a st) /\ In st' (ms b x).
Proof. cbn [ms]. apply in_flat_map. Qed.

Lemma iter_in (body : state -> list state) (g : bool) (f : nat) (st st' : state) :
  In st' (iter body g (S f) st) ->
  st' = st \/
  exists x, In x (body st) /\ length (fst x) < length (fst st) /\
            In st' (iter body g f x).
Proof.
  cbn [iter]. intros H.
  assert (M : In st'
                (flat_map (fun x => if length (fst x) <? length (fst st)
                                    then iter body g f x else []) (body st)) ->
              exists x, In x (body st) /\ length (fst x) < length (fst st) /\
                        In st' (iter body g f x)).
  { rewrite in_flat_map. intros (x & Hx & Hin).
    destruct (length (fst x) <? length (fst st)) eqn:E; [|destruct Hin].
    apply Nat.ltb_lt in E. eauto. }
  destruct g.
  - apply in_app_or in H as [H|[H|[]]]; auto.
  - destruct H as [H|H]; auto.
Qed.

(** What remains after a match is a suffix of the text. *)
Lemma iter_suffix (body : state -> list state) (g : bool) :
  (forall st st', In st' (body st) -> exists w, fst st = w ++ fst st') ->
  forall f st st', In st' (iter body g f st) -> exists w, fst st = w ++ fst st'.
Proof.
  intros Hb. induction f as [|f IH]; intros st st' H.
  - destruct H as [H|[]]. subst. exists []. reflexivity.
  - apply iter_in in H as [H|(x & Hx & _ & Hin)].
    + subst. exists []. reflexivity.
    + destruct (Hb _ _ Hx) as [w1 E1]. destruct (IH _ _ Hin) as [w2 E2].
      exists (w1 ++ w2). rewrite E1, E2. apply app_assoc.
Qed.

Lemma ms_suffix (r : regex) :
  forall st st', In st' (ms r st) -> exists w, fst st = w ++ fst st'.
Proof.
  induction r as [k| |a IHa b IHb|a IHa b IHb|g a IHa|i a IHa]; intros st st'.
  - cbn [ms]. destruct (fst st) as [|c tl] eqn:E; [intros []|].
    destruct (accepts k c); [|intros []].
    intros [H|[]]. subst st'. exists [c]. reflexivity.
  - intros [H|[]]. subst. exists []. reflexivity.
  - rewrite in_ms_seq. intros (x & Hx & H).
    destruct (IHa _ _ Hx) as [w1 E1]. destruct (IHb _ _ H) as [w2 E2].
    exists (w1 ++ w2). rewrite E1, E2. apply app_assoc.
  - cbn [ms]. intros H. apply in_app_or in H as [H|H]; eauto.
  - cbn [ms]. apply iter_suffix. exact IHa.
  - cbn [ms]. rewrite in_map_iff. intros (x & E & Hx). subst st'. cbn [fst].
    eauto.
Qed.

Lemma ms_length (r : regex) (st st' : state) :
  In st' (ms r st) -> length (fst st') <= length (fst st).
Proof.
  intros H. destruct (ms_suffix _ _ _ H) as [w E]. rewrite E, length_app. lia.
Qed.

Lemma ms_nonnull (r : regex) :
  nonnull r = true ->
  forall st st', In st' (ms r st) -> length (fst st') < length (fst st).
Proof.
  induction r as [k| |a IHa b IHb|a IHa b IHb|g a IHa|i a IHa];
    cbn [nonnull]; intros N st st'; try discriminate.
  - cbn [ms]. destruct (fst st) as [|c tl] eqn:E; [intros []|].
    destruct (accepts k c); [|intros []].
    intros [H|[]]. subst st'. cbn. lia.
  - rewrite in_ms_seq. intros (x & Hx & H).
    pose proof (ms_length _ _ _ Hx). pose proof (ms_length _ _ _ H).
    apply orb_prop in N as [N|N].
    + specialize (IHa N _ _ Hx). lia.
    + specialize (IHb N _ _ H). lia.
  - apply andb_prop in N as [Na Nb]. cbn [ms]. intros H.
    apply in_app_or in H as [H|H]; eauto.
  - cbn [ms]. rewrite in_map_iff. intros (x & E & Hx). subst st'. cbn [fst].
    eauto.
Qed.

Lemma ms_nonnull_nil (r : regex) (c : caps) :
  nonnull r = true -> ms r ([], c) = [].
Proof.
  intros N. destruct (ms r ([], c)) as [|x l] eqn:E; [reflexivity|].
  assert (H : In x (ms r ([], c))) by (rewrite E; left; reflexivity).
  apply (ms_nonnull _ N) in H. cbn in H. lia.
Qed.

(** None of the eight patterns can match the empty string: the scan always
    resumes behind a match of at least one character. *)
Lemma recognizers_nonnull : forallb nonnull recognizers = true.
Proof. reflexivity. Qed.

Lemma match_at_in (p : regex) (s rest : text) (c : caps) :
  match_at p s = Some (rest, c) -> In (rest, c) (ms p (s, [])).
Proof.
  unfold match_at. destruct (ms p (s, [])) as [|x l]; cbn; [discriminate|].
  intros E. injection E as E. left. exact E.
Qed.

(** ** The fuel of a repetition does not matter *)

Lemma iter_fuel (body : state -> list state) (g : bool) :
  forall f f' st,
    length (fst st) < f -> length (fst st) < f' ->
    iter body g f st = iter body g f' st.
Proof.
  induction f as [|f IH]; intros f' st H H'; [lia|].
  destruct f' as [|f']; [lia|]. cbn [iter].
  rewrite (flat_map_ext
             (fun x => if length (fst x) <? length (fst st)
                       then iter body g f x else [])
             (fun x => if length (fst x) <? length (fst st)
                       then iter body g f' x else [])); [reflexivity|].
  intros x. destruct (length (fst x) <? length (fst st)) eqn:E; [|reflexivity].
  apply Nat.ltb_lt in E. apply IH; lia.
Qed.

(** ** Matches within a line *)

Lemma flat_map_map_comm (A B C D : Type) (g : A -> B) (h : C -> D)
      (F : B -> list D) (G : A -> list C) (l : list A) :
  (forall x, F (g x) = map h (G x)) ->
  flat_map F (map g l) = map h (flat_map G l).
Proof.
  intros H. induction l as [|x l IH]; cbn [map flat_map]; [reflexivity|].
  rewrite map_app, H, IH. reflexivity.
Qed.

Lemma iter_extend (body : state -> list state) (g : bool) (tail : text) :
  (forall st, body (extend tail st) = map (extend tail) (body st)) ->
  forall f st,
    iter body g f (extend tail st) = map (extend tail) (iter body g f st).
Proof.
  intros Hb. induction f as [|f IH]; intros st; cbn [iter]; [reflexivity|].
  rewrite Hb.
  rewrite (flat_map_map_comm (extend tail) (extend tail)
             (fun x => if length (fst x) <? length (fst (extend tail st))
                       then iter body g f x else [])
             (fun x => if length (fst x) <? length (fst st)
                       then iter body g f x else [])).
  - destruct g; [rewrite map_app|]; reflexivity.
  - intros x. unfold extend at 1 2. cbn [fst]. rewrite !length_app.
    destruct (Nat.ltb_spec (length (fst x)) (length (fst st)));
      destruct (Nat.ltb_spec (length (fst x) + length tail)
                             (length (fst st) + length tail));
      try lia; [apply IH | reflexivity].
Qed.

Lemma ms_extend (r : regex) (b : text) :
  nlfree r = true ->
  forall st, ms r (extend (nl :: b) st) = map (extend (nl :: b)) (ms r st).
Proof.
  induction r as [k| |a1 IH1 a2 IH2|a1 IH1 a2 IH2|g a IHa|i a IHa];
    cbn [nlfree]; intros N st; try discriminate.
  - destruct st as [[|x s] c]; cbn [ms extend fst snd app].
    + apply negb_true_iff in N. rewrite N. reflexivity.
    + destruct (accepts k x); reflexivity.
  - reflexivity.
  - apply andb_prop in N as [N1 N2]. cbn [ms]. rewrite (IH1 N1).
    apply flat_map_map_comm. exact (IH2 N2).
  - apply andb_prop in N as [N1 N2]. cbn [ms].
    rewrite (IH1 N1), (IH2 N2), map_app. reflexivity.
  - cbn [ms]. rewrite (iter_extend _ _ _ (IHa N)).
    apply (f_equal (map (extend (nl :: b)))).
    apply iter_fuel; unfold extend; cbn [fst]; rewrite ?length_app.
    + apply Nat.lt_succ_r, Nat.le_add_r.
    + apply Nat.lt_succ_diag_r.
Qed.

(** ** The scan, line by line *)

Lemma scan_skip_app (p : regex) (w rest : text) :
  scan p (w ++ rest) (length w) = scan p rest 0.
Proof.
  induction w as [|x w IH]; cbn [app length]; [reflexivity|].
  cbn [scan]. exact IH.
Qed.

Lemma match_at_nil (p : regex) : nonnull p = true -> match_at p [] = None.
Proof.
  intros N. unfold match_at. rewrite (ms_nonnull_nil _ _ N). reflexivity.
Qed.

Lemma match_at_line (p : regex) (a b : text) :
  nlfree p = true ->
  match_at p (a ++ nl :: b) = option_map (extend (nl :: b)) (match_at p a).
Proof.
  intros L. unfold match_at.
  change (a ++ nl :: b, @nil (nat * text)) with (extend (nl :: b) (a, [])).
  rewrite (ms_extend _ _ L). destruct (ms p (a, [])); reflexivity.
Qed.

Lemma scan_lines (p : regex) (b : text) :
  nlfree p = true -> nonnull p = true ->
  forall a k, k <= length a ->
              scan p (a ++ nl :: b) k = scan p a k ++ scan p b 0.
Proof.
  intros L N. induction a as [|x a IH]; intros k Hk.
  - destruct k; [|cbn in Hk; lia].
    pose proof (match_at_line p [] b L) as M. cbn [app] in M.
    rewrite (match_at_nil _ N) in M. cbn [option_map] in M.
    cbn [app scan]. rewrite M, (match_at_nil _ N). reflexivity.
  - destruct k as [|k].
    + pose proof (match_at_line p (x :: a) b L) as M. cbn [app] in M.
      cbn [app scan]. rewrite M.
      destruct (match_at p (x :: a)) as [[rest c]|] eqn:E;
        cbn [option_map extend fst snd].
      * assert (En : length (x :: a ++ nl :: b) - length (rest ++ nl :: b) =
                     length (x :: a) - length rest).
        { cbn [length]. rewrite !length_app. cbn [length].
          generalize (length a), (length rest), (length b). intros; lia. }
        rewrite En. cbn [app]. f_equal.
        -- f_equal. rewrite app_comm_cons, firstn_app.
           replace (length (x :: a) - length rest - length (x :: a)) with 0
             by (generalize (length (x :: a)), (length rest); intros; lia).
           cbn [firstn]. apply app_nil_r.
        -- apply IH. cbn [length].
           generalize (length a), (length rest). intros; lia.
      * apply IH. lia.
    + cbn [app scan]. apply IH. cbn in Hk. lia.
Qed.

Lemma count_nil (p : regex) : nonnull p = true -> count p [] = 0.
Proof.
  intros N. unfold count, findall0. cbn [scan].
  rewrite (match_at_nil _ N). reflexivity.
Qed.

Lemma count_app_line (p : regex) (a b : text) :
  nlfree p = true -> nonnull p = true ->
  count p (a ++ nl :: b) = count p a + count p b.
Proof.
  intros L N. unfold count, findall0.
  rewrite !length_map, (scan_lines p b L N) by lia. apply length_app.
Qed.

(** The count over a text is the sum of the counts over its lines. *)
Lemma count_unlines (p : regex) (ls : list text) :
  nlfree p = true -> nonnull p = true ->
  count p (unlines ls) = list_sum (map (count p) ls).
Proof.
  intros L N. induction ls as [|l ls IH]; [apply (count_nil _ N)|].
  destruct ls as [|l2 ls].
  - cbn [unlines map list_sum]. symmetry. apply Nat.add_0_r.
  - change (unlines (l :: l2 :: ls)) with (l ++ nl :: unlines (l2 :: ls)).
    rewrite (count_app_line p _ _ L N), IH. reflexivity.
Qed.

Lemma count_no_match (p : regex) (l : text) :
  no_match p l = true -> count p l = 0.
Proof.
  intros H. unfold count, findall0.
  rewrite (scan_none _ _ (no_match_spec _ _ H)). reflexivity.
Qed.

Lemma count_without_lines (p : regex) (keep : text -> bool) (ls : list text) :
  nlfree p = true -> nonnull p = true ->
  dropped_hold_none p keep ls = true ->
  count p (unlines (filter keep ls)) = count p (unlines ls).
Proof.
  intros L N H. rewrite !(fun l => count_unlines p l L N).
  unfold dropped_hold_none in H.
  induction ls as [|l ls IH]; [reflexivity|].
  cbn [forallb] in H. apply andb_prop in H as [H1 H2].
  specialize (IH H2). simpl filter.
  destruct (keep l); cbn [orb] in H1; simpl map; simpl list_sum.
  - rewrite IH. reflexivity.
  - rewrite IH, (count_no_match _ _ H1). reflexivity.
Qed.

(** ** C2 *)

(** C2 (amended).  Dropping whole lines from a text (all its import lines,
    say) leaves each of the four counted fields as it was, provided none of
    the dropped lines holds a match of that field's own recognizer: the
    assertion count, the timeout count, the concurrency count and the mocking
    count are each the sum of what their recognizer finds line by line. *)
Theorem removing_lines_keeps_counts (keep : text -> bool) (ls : list text) :
  (dropped_hold_none assertions_re keep ls = true ->
   assertions (analyze (unlines (filter keep ls))) =
   assertions (analyze (unlines ls))) /\
  (dropped_hold_none timeouts_re keep ls = true ->
   timeouts (analyze (unlines (filter keep ls))) =
   timeouts (analyze (unlines ls))) /\
  (dropped_hold_none concurrent_patterns_re keep ls = true ->
   concurrent_patterns (analyze (unlines (filter keep ls))) =
   concurrent_patterns (analyze (unlines ls))) /\
  (dropped_hold_none mockito_re keep ls = true ->
   mockito_usage (analyze (unlines (filter keep ls))) =
   mockito_usage (analyze (unlines ls))).
Proof.
  repeat split; intros H.
  - exact (count_without_lines assertions_re keep ls eq_refl eq_refl H).
  - exact (count_without_lines timeouts_re keep ls eq_refl eq_refl H).
  - exact (count_without_lines concurrent_patterns_re keep ls eq_refl eq_refl H).
  - exact (count_without_lines mockito_re keep ls eq_refl eq_refl H).
Qed.

(** ** Repetitions of one character class *)

Lemma iter_chr_in (k : cls) (g : bool) :
  forall f s c st',
    In st' (iter (ms (Chr k)) g f (s, c)) ->
    snd st' = c /\ exists w, s = w ++ fst st' /\ forallb (accepts k) w = true.
Proof.
  induction f as [|f IH]; intros s c st' H.
  - destruct H as [H|[]]. subst st'. split; [reflexivity|].
    exists []. split; reflexivity.
  - apply iter_in in H as [H|(x & Hx & _ & Hin)].
    + subst st'. split; [reflexivity|]. exists []. split; reflexivity.
    + cbn [ms fst snd] in Hx. destruct s as [|y s]; [destruct Hx|].
      destruct (accepts k y) eqn:Ey; [|destruct Hx].
      destruct Hx as [Hx|[]]. subst x.
      apply IH in Hin as [Hc (w & E & Hw)]. split; [exact Hc|].
      exists (y :: w). cbn [app forallb]. rewrite Ey, Hw, <- E.
      split; reflexivity.
Qed.

Lemma ms_plus_chr_in (k : cls) (s : text) (c : caps) (st' : state) :
  In st' (ms (plus (Chr k)) (s, c)) ->
  snd st' = c /\
  exists w, w <> [] /\ s = w ++ fst st' /\ forallb (accepts k) w = true.
Proof.
  unfold plus. rewrite in_ms_seq. intros (x & Hx & H).
  cbn [ms fst snd] in Hx. destruct s as [|y s]; [destruct Hx|].
  destruct (accepts k y) eqn:Ey; [|destruct Hx].
  destruct Hx as [Hx|[]]. subst x.
  change (ms (Star true (Chr k)) (s, c))
    with (iter (ms (Chr k)) true (S (length s)) (s, c)) in H.
  apply iter_chr_in in H as [Hc (w & E & Hw)]. split; [exact Hc|].
  exists (y :: w). cbn [app forallb]. rewrite Ey, Hw, <- E.
  repeat split. discriminate.
Qed.

Lemma firstn_consumed (A : Type) (w r : list A) :
  firstn (length (w ++ r) - length r) (w ++ r) = w.
Proof.
  rewrite length_app, Nat.add_sub, firstn_app, Nat.sub_diag, firstn_all.
  cbn [firstn]. apply app_nil_r.
Qed.

(** ** Captures *)

Lemma iter_caps (body : state -> list state) (g : bool) (G : list nat) :
  (forall st st', In st' (body st) ->
                  exists new, snd st' = new ++ snd st /\ only_groups G new) ->
  forall f st st',
    In st' (iter body g f st) ->
    exists new, snd st' = new ++ snd st /\ only_groups G new.
Proof.
  intros Hb. induction f as [|f IH]; intros st st' H.
  - destruct H as [H|[]]. subst. exists []. split; [reflexivity|]. intros i v [].
  - apply iter_in in H as [H|(x & Hx & _ & Hin)].
    + subst. exists []. split; [reflexivity|]. intros i v [].
    + destruct (Hb _ _ Hx) as (n1 & E1 & G1).
      destruct (IH _ _ Hin) as (n2 & E2 & G2).
      exists (n2 ++ n1). rewrite E2, E1. split; [apply app_assoc|].
      intros i v Hi. apply in_app_or in Hi as [Hi|Hi]; eauto.
Qed.

(** A match only adds captures, and only for the groups of its pattern. *)
Lemma ms_caps (r : regex) :
  forall st st', In st' (ms r st) ->
                 exists new, snd st' = new ++ snd st /\ only_groups (groups r) new.
Proof.
  induction r as [k| |a IHa b IHb|a IHa b IHb|g a IHa|i a IHa]; intros st st';
    cbn [groups].
  - cbn [ms]. destruct (fst st) as [|c tl]; [intros []|].
    destruct (accepts k c); [|intros []].
    intros [H|[]]. subst st'. exists []. split; [reflexivity|]. intros i v [].
  - intros [H|[]]. subst. exists []. split; [reflexivity|]. intros i v [].
  - rewrite in_ms_seq. intros (x & Hx & H).
    destruct (IHa _ _ Hx) as (n1 & E1 & G1).
    destruct (IHb _ _ H) as (n2 & E2 & G2).
    exists (n2 ++ n1). rewrite E2, E1. split; [apply app_assoc|].
    intros i v Hi. apply in_or_app.
    apply in_app_or in Hi as [Hi|Hi]; eauto.
  - cbn [ms]. intros H. apply in_app_or in H as [H|H].
    + destruct (IHa _ _ H) as (n & E & Gn). exists n. split; [exact E|].
      intros i v Hi. apply in_or_app. eauto.
    + destruct (IHb _ _ H) as (n & E & Gn). exists n. split; [exact E|].
      intros i v Hi. apply in_or_app. eauto.
  - cbn [ms]. apply iter_caps. exact IHa.
  - cbn [ms]. rewrite in_map_iff. intros (x & E & Hx). cbv beta in E.
    subst st'. cbn [snd].
    destruct (IHa _ _ Hx) as (n & En & Gn). rewrite En.
    eexists (_ :: n). split; [reflexivity|].
    intros j v [Hj|Hj]; [injection Hj as -> _; left; reflexivity|].
    right. eauto.
Qed.

Lemma group_frame (j : nat) (new c : caps) :
  (forall i v, In (i, v) new -> i <> j) -> group j (new ++ c) = group j c.
Proof.
  induction new as [|[i v] new IH]; intros H; cbn [app group]; [reflexivity|].
  destruct (Nat.eqb_spec j i) as [E|E].
  - exfalso. apply (H i v); [left; reflexivity | congruence].
  - apply IH. intros i' v' Hi. apply (H i' v'). right. exact Hi.
Qed.

Lemma scan_in (p : regex) (m : found) :
  forall s k, In m (scan p s k) ->
              exists s' rest, match_at p s' = Some (rest, snd m).
Proof.
  induction s as [|x s IH]; intros k H.
  - destruct k; cbn [scan] in H; [|destruct H].
    destruct (match_at p []) as [[rest c]|] eqn:E; [|destruct H].
    destruct H as [H|[]]. subst m. eauto.
  - destruct k; cbn [scan] in H; [|eauto].
    destruct (match_at p (x :: s)) as [[rest c]|] eqn:E; [|eauto].
    destruct H as [H|H]; [|eauto]. subst m. eauto.
Qed.

(** ** C10 *)

(** C10.  Every pair in the nested groups of an analysis has a display name
    that is not empty and holds no double quote; so a declaration whose
    display name is the empty string is never among them. *)
Theorem nested_display_names (content display_name class_name : text) :
  In (display_name, class_name) (nested_classes (analyze content)) ->
  display_name <> [] /\ ~ In dq display_name.
Proof.
  unfold analyze, findall2. cbn [nested_classes]. rewrite in_map_iff.
  intros (m & E & Hm). assert (E1 : group 1 (snd m) = display_name) by congruence.
  clear E.
  apply scan_in in Hm as (s' & rest & Hm). apply match_at_in in Hm.
  unfold nested_classes_re in Hm.
  apply in_ms_seq in Hm as (x1 & _ & Hm).
  apply in_ms_seq in Hm as (x2 & _ & Hm).
  apply in_ms_seq in Hm as (x3 & _ & Hm).
  apply in_ms_seq in Hm as ([s4 c4] & _ & Hm).
  apply in_ms_seq in Hm as (x5 & H5 & Hm).
  cbn [ms] in H5. apply in_map_iff in H5 as (y & Ey & Hy).
  apply ms_plus_chr_in in Hy as (Hc & w & Hw & Es & Hall).
  cbn [fst snd] in Ey. rewrite Es, firstn_consumed, Hc in Ey. subst x5.
  apply ms_caps in Hm as (new & En & Gn). cbn [snd] in En.
  assert (D : display_name = w).
  { rewrite <- E1, En. rewrite group_frame; [reflexivity|].
    intros i v Hi. apply Gn in Hi. cbv in Hi.
    destruct Hi as [Hi|[]]. subst i. discriminate. }
  rewrite D. split; [exact Hw|].
  intros Hq. rewrite forallb_forall in Hall. specialize (Hall _ Hq).
  cbn in Hall. discriminate Hall.
Qed.

(** ** The first match *)

Lemma first_seq (a b : regex) (st x y : state) :
  hd_error (ms a st) = Some x -> hd_error (ms b x) = Some y ->
  hd_error (ms (Seq a b) st) = Some y.
Proof.
  intros Ha Hb. cbn [ms].
  destruct (ms a st) as [|x' l]; [discriminate|].
  cbn in Ha. injection Ha as ->. cbn [flat_map].
  destruct (ms b x) as [|y' l']; [discriminate|]. exact Hb.
Qed.

Lemma first_lits (l : text) (r : regex) (s : text) (c : caps) (y : state) :
  hd_error (ms r (s, c)) = Some y ->
  hd_error (ms (Seq (lits l) r) (l ++ s, c)) = Some y.
Proof.
  intros H. rewrite ms_seq_lits, prefixb_app, skipn_length_app. exact H.
Qed.

Lemma first_chr (k : cls) (x : char) (s : text) (c : caps) :
  accepts k x = true -> hd_error (ms (Chr k) (x :: s, c)) = Some (s, c).
Proof. intros H. cbn [ms fst snd]. rewrite H. reflexivity. Qed.

Lemma first_star_skip (g : bool) (a : regex) (st : state) :
  ms a st = [] -> hd_error (ms (Star g a) st) = Some st.
Proof. intros H. cbn [ms iter]. rewrite H. destruct g; reflexivity. Qed.

Lemma iter_run (k : cls) :
  forall w rest c f,
    forallb (accepts k) w = true -> stops k rest = true ->
    length (w ++ rest) < f ->
    hd_error (iter (ms (Chr k)) true f (w ++ rest, c)) = Some (rest, c).
Proof.
  induction w as [|x w IH]; intros rest c f Hw Hs Hf.
  - cbn [app] in *. destruct f; [lia|]. cbn [iter].
    assert (E : ms (Chr k) (rest, c) = []).
    { cbn [ms fst snd]. destruct rest as [|y rest]; [reflexivity|].
      cbn [stops] in Hs. apply negb_true_iff in Hs. rewrite Hs. reflexivity. }
    rewrite E. reflexivity.
  - cbn [forallb] in Hw. apply andb_prop in Hw as [Hx Hw].
    destruct f; [lia|]. cbn [app length] in Hf. cbn [app iter].
    assert (E : ms (Chr k) (x :: w ++ rest, c) = [(w ++ rest, c)])
      by (cbn [ms fst snd]; rewrite Hx; reflexivity).
    rewrite E. cbn [flat_map fst length].
    assert (L : (length (w ++ rest) <? S (length (w ++ rest))) = true)
      by (apply Nat.ltb_lt; lia).
    rewrite L.
    specialize (IH rest c f Hw Hs ltac:(lia)).
    destruct (iter (ms (Chr k)) true f (w ++ rest, c)) as [|z l]; [discriminate|].
    exact IH.
Qed.

Lemma first_star_run (k : cls) (w rest : text) (c : caps) :
  forallb (accepts k) w = true -> stops k rest = true ->
  hd_error (ms (Star true (Chr k)) (w ++ rest, c)) = Some (rest, c).
Proof.
  intros Hw Hs. cbn [ms fst]. apply iter_run; auto.
Qed.

Lemma first_plus_run (k : cls) (w rest : text) (c : caps) :
  w <> [] -> forallb (accepts k) w = true -> stops k rest = true ->
  hd_error (ms (plus (Chr k)) (w ++ rest, c)) = Some (rest, c).
Proof.
  intros Hn Hw Hs. destruct w as [|x w]; [congruence|].
  cbn [forallb] in Hw. apply andb_prop in Hw as [Hx Hw]. unfold plus.
  eapply first_seq; [apply first_chr; exact Hx|].
  apply first_star_run; assumption.
Qed.

Lemma first_group_run (i : nat) (k : cls) (w rest : text) (c : caps) :
  w <> [] -> forallb (accepts k) w = true -> stops k rest = true ->
  hd_error (ms (Group i (plus (Chr k))) (w ++ rest, c)) =
  Some (rest, (i, w) :: c).
Proof.
  intros Hn Hw Hs. pose proof (@first_plus_run k w rest c Hn Hw Hs) as H.
  cbn [ms]. destruct (ms (plus (Chr k)) (w ++ rest, c)) as [|z l]; [discriminate|].
  cbn in H. injection H as ->. cbn [map hd_error fst snd].
  rewrite firstn_consumed. reflexivity.
Qed.

(** ** Where runs end *)

Lemma ascii_space_not_word (c : char) :
  ascii_space c = true -> ascii_word c = false.
Proof.
  unfold ascii_space, ascii_word, in_range. intros H.
  apply not_true_is_false. intros W.
  rewrite !orb_true_iff, !andb_true_iff, !N.leb_le in H.
  rewrite !orb_true_iff, !andb_true_iff, !N.leb_le, N.eqb_eq in W. lia.
Qed.

Lemma space_not_word (c : char) : is_space c = true -> is_word c = false.
Proof.
  unfold is_space, is_word. destruct (is_ascii c).
  - apply ascii_space_not_word.
  - apply uni_space_not_alnum.
Qed.

Lemma word_not_space (c : char) : is_word c = true -> is_space c = false.
Proof.
  intros H. destruct (is_space c) eqn:E; [|reflexivity].
  rewrite (space_not_word _ E) in H. discriminate.
Qed.

Lemma blank_run (w : text) :
  blank w = true -> w <> [] /\ forallb (accepts Space) w = true.
Proof. destruct w; cbn [blank]; [discriminate|]. split; [discriminate|auto]. Qed.

Lemma identifier_run (w : text) :
  identifier w = true -> w <> [] /\ forallb (accepts Word) w = true.
Proof. destruct w; cbn [identifier]; [discriminate|]. split; [discriminate|auto]. Qed.

Lemma quotable_run (w : text) :
  quotable w = true -> w <> [] /\ forallb (accepts (NoneOf [dq])) w = true.
Proof.
  destruct w as [|x w]; cbn [quotable]; [discriminate|].
  intros H. split; [discriminate|].
  rewrite forallb_forall in *. intros y Hy. specialize (H y Hy).
  cbn [accepts existsb]. rewrite orb_false_r. exact H.
Qed.

Lemma stops_space_identifier (w rest : text) :
  identifier w = true -> stops Space (w ++ rest) = true.
Proof.
  destruct w as [|x w]; cbn [identifier]; [discriminate|].
  cbn [forallb app stops accepts]. intros H. apply andb_prop in H as [H _].
  rewrite (word_not_space _ H). reflexivity.
Qed.

Lemma stops_word_blank (w rest : text) :
  blank w = true -> stops Word (w ++ rest) = true.
Proof.
  destruct w as [|x w]; cbn [blank]; [discriminate|].
  cbn [forallb app stops accepts]. intros H. apply andb_prop in H as [H _].
  rewrite (space_not_word _ H). reflexivity.
Qed.

(** An annotation does not start where an identifier stands. *)
Lemma ms_at_identifier (r : regex) (w s : text) (c : caps) :
  identifier w = true -> ms (Seq (lits (str "@")) r) (w ++ s, c) = [].
Proof.
  destruct w as [|x w]; cbn [identifier]; [discriminate|].
  cbn [forallb]. intros H. apply andb_prop in H as [H _].
  rewrite ms_seq_lits.
  assert (E : prefixb (str "@") ((x :: w) ++ s) = false).
  { change (str "@") with [64%N]. cbn [app prefixb]. rewrite andb_true_r.
    destruct (N.eqb_spec 64 x) as [<-|]; [discriminate H|reflexivity]. }
  rewrite E. reflexivity.
Qed.

(** ** The scan, match by match *)

Lemma scan_match (p : regex) (s rest : text) (c : caps) :
  match_at p s = Some (rest, c) -> length rest < length s ->
  scan p s 0 = (firstn (length s - length rest) s, c) :: scan p rest 0.
Proof.
  intros H L.
  destruct (ms_suffix _ _ _ (match_at_in _ _ H)) as [w E]. cbn [fst] in E.
  subst s. destruct w as [|x w]; [cbn [app] in L; lia|].
  cbn [app scan]. change (x :: w ++ rest) with ((x :: w) ++ rest).
  rewrite H. f_equal.
  replace (pred (length ((x :: w) ++ rest) - length rest)) with (length w)
    by (cbn [app length]; rewrite length_app; lia).
  apply scan_skip_app.
Qed.

Lemma scan_gap (m : text) (r : regex) (g rest : text) :
  marker_free m g rest = true ->
  scan (Seq (lits m) r) (g ++ rest) 0 = scan (Seq (lits m) r) rest 0.
Proof.
  induction g as [|x g IH]; cbn [marker_free]; intros H; [reflexivity|].
  apply andb_prop in H as [H1 H2]. apply negb_true_iff in H1.
  cbn [app] in *. cbn [scan]. unfold match_at at 1.
  rewrite ms_seq_lits, H1. cbn [hd_error]. exact (IH H2).
Qed.

Lemma scan_marker_free (m : text) (r : regex) (t : text) :
  m <> [] -> marker_free m t [] = true -> scan (Seq (lits m) r) t 0 = [].
Proof.
  intros Hm H. rewrite <- (app_nil_r t), (scan_gap _ _ _ _ H).
  cbn [scan]. unfold match_at. rewrite ms_seq_lits.
  destruct m; [congruence|reflexivity].
Qed.

(** ** C3 *)

(** C3 (amended).  When the text holds exactly one @Test marker and that
    marker is followed by whitespace, one modifier word, whitespace, the word
    void, whitespace and the method identifier, the test-method names are
    exactly that one identifier. *)
Theorem single_test_method (pre sp1 modifier sp2 sp3 name post : text) :
  blank sp1 = true -> identifier modifier = true -> blank sp2 = true ->
  blank sp3 = true -> identifier name = true -> stops Word post = true ->
  marker_free (str "@Test") pre
    (str "@Test" ++ sp1 ++ modifier ++ sp2 ++ str "void" ++ sp3 ++ name ++ post)
    = true ->
  marker_free (str "@Test") post [] = true ->
  test_methods
    (analyze (pre ++ str "@Test" ++ sp1 ++ modifier ++ sp2 ++ str "void" ++
              sp3 ++ name ++ post)) = [name].
Proof.
  intros B1 Im B2 B3 In Hp Fpre Fpost.
  destruct (blank_run _ B1) as [N1 R1]. destruct (blank_run _ B2) as [N2 R2].
  destruct (blank_run _ B3) as [N3 R3].
  destruct (identifier_run _ Im) as [Nm Rm].
  destruct (identifier_run _ In) as [Nn Rn].
  unfold analyze, findall1. cbn [test_methods]. unfold test_methods_re.
  rewrite (scan_gap _ _ _ _ Fpre).
  rewrite (@scan_match _ _ post [(1, name)]).
  - rewrite scan_marker_free by (assumption || discriminate). reflexivity.
  - unfold match_at, ws1, word1.
    apply first_lits.
    eapply first_seq;
      [apply first_plus_run; auto; apply stops_space_identifier; exact Im|].
    eapply first_seq;
      [apply first_star_skip; apply ms_at_identifier; exact Im|].
    eapply first_seq;
      [apply first_star_skip; apply ms_at_identifier; exact Im|].
    eapply first_seq;
      [apply first_plus_run; auto; apply stops_word_blank; exact B2|].
    eapply first_seq; [apply first_plus_run; auto|].
    apply first_lits.
    eapply first_seq;
      [apply first_plus_run; auto; apply stops_space_identifier; exact In|].
    apply first_group_run; auto.
  - rewrite !length_app. cbn [length str map list_ascii_of_string]. lia.
Qed.

(** ** C4 *)

Lemma match_at_decl (d : group_decl) (rest : text) :
  well_formed_decl d rest = true ->
  match_at nested_classes_re (decl_text d rest) =
  Some (rest, [(2, decl_class_name d); (1, decl_display_name d)]).
Proof.
  unfold well_formed_decl. intros H.
  repeat (apply andb_prop in H; destruct H as [H ?H]).
  destruct (blank_run _ H) as [N1 R1]. destruct (blank_run _ H4) as [N2 R2].
  destruct (blank_run _ H3) as [N3 R3].
  destruct (quotable_run _ H5) as [Nq Rq].
  destruct (identifier_run _ H2) as [Ni Ri].
  unfold match_at, nested_classes_re, decl_text, ws1, word1.
  apply first_lits.
  eapply first_seq; [apply first_plus_run; auto|].
  apply first_lits.
  eapply first_seq; [apply first_chr; reflexivity|].
  eapply first_seq;
    [apply first_group_run; auto; cbn [stops accepts existsb];
     rewrite N.eqb_refl; reflexivity|].
  eapply first_seq; [apply first_chr; reflexivity|].
  apply first_lits.
  eapply first_seq; [apply first_plus_run; auto|].
  apply first_lits.
  eapply first_seq;
    [apply first_plus_run; auto; apply stops_space_identifier; exact H2|].
  apply first_group_run; auto.
Qed.

Lemma decl_text_longer (d : group_decl) (rest : text) :
  length rest < length (decl_text d rest).
Proof.
  unfold decl_text. rewrite !length_app. cbn [length]. rewrite !length_app.
  cbn [length str map list_ascii_of_string]. rewrite !length_app. lia.
Qed.

(** C4 (amended).  In a text that holds N group declarations, each written
    as @Nested, whitespace, @DisplayName with a quoted string that is not
    empty and holds no double quote, whitespace, class, whitespace and the
    class identifier, and that holds no other @Nested marker, the nested
    groups are the N pairs of quoted string and identifier, each exactly as
    written, in the order of the declarations. *)
Theorem nested_groups_in_order (ds : list group_decl) (tail : text) :
  well_formed ds tail = true ->
  nested_classes (analyze (groups_text ds tail)) =
  map (fun d => (decl_display_name d, decl_class_name d)) ds.
Proof.
  unfold analyze, findall2. cbn [nested_classes].
  induction ds as [|d ds IH]; cbn [well_formed groups_text map]; intros H.
  - unfold nested_classes_re.
    rewrite scan_marker_free by (assumption || discriminate). reflexivity.
  - apply andb_prop in H as [Hd Hds].
    assert (F : marker_free (str "@Nested") (decl_gap d)
                  (decl_text d (groups_text ds tail)) = true).
    { unfold well_formed_decl in Hd. apply andb_prop in Hd as [_ Hd]. exact Hd. }
    unfold nested_classes_re at 1. rewrite (scan_gap _ _ _ _ F).
    fold nested_classes_re.
    rewrite (@scan_match _ _ _ _ (match_at_decl _ _ Hd) (decl_text_longer _ _)).
    cbn [map snd group Nat.eqb]. rewrite (IH Hds). reflexivity.
Qed.

(** ** Matches and marker occurrences *)

Lemma match_at_prefix (m : text) (r : regex) (s : text) (st : state) :
  match_at (Seq (lits m) r) s = Some st -> prefixb m s = true.
Proof.
  unfold match_at. rewrite ms_seq_lits.
  destruct (prefixb m s); [reflexivity | discriminate].
Qed.

Lemma scan_le_occurrences (m : text) (r : regex) :
  forall s k, length (scan (Seq (lits m) r) s k) <= occurrences m s.
Proof.
  induction s as [|x s IH]; intros k.
  - destruct k; cbn [scan occurrences]; [|cbn; lia].
    destruct (match_at (Seq (lits m) r) []) as [[rest c]|] eqn:E; [|cbn; lia].
    apply match_at_prefix in E. rewrite E. cbn. lia.
  - destruct k; cbn [scan occurrences]; [|specialize (IH k); lia].
    destruct (match_at (Seq (lits m) r) (x :: s)) as [[rest c]|] eqn:E.
    + pose proof (match_at_prefix _ _ _ E) as P. rewrite P.
      cbv beta iota zeta. cbn [length].
      match goal with |- context [scan _ s ?j] => specialize (IH j) end. lia.
    + specialize (IH 0). lia.
Qed.

(** X1.  No recognizer finds more matches than its leading keyword has
    occurrences in the text: at most one test method per @Test, one group per
    @Nested, one helper per private, one import per import, one assertion per
    assert. *)
Theorem matches_bounded_by_markers (content : text) :
  length (test_methods (analyze content)) <= occurrences (str "@Test") content /\
  length (nested_classes (analyze content)) <= occurrences (str "@Nested") content /\
  length (helper_methods (analyze content)) <= occurrences (str "private") content /\
  length (imports (analyze content)) <= occurrences (str "import") content /\
  assertions (analyze content) <= occurrences (str "assert") content.
Proof.
  unfold analyze, findall0, findall1, findall2.
  cbn [test_methods nested_classes helper_methods imports assertions].
  rewrite !length_map.
  split; [apply scan_le_occurrences|].
  split; [apply scan_le_occurrences|].
  split; [apply scan_le_occurrences|].
  split; apply scan_le_occurrences.
Qed.

Lemma occurrences_skip (a : char) (m' : text) :
  forall w rest,
    (forall x, In x w -> x <> a) ->
    occurrences (a :: m') (w ++ rest) = occurrences (a :: m') rest.
Proof.
  induction w as [|x w IH]; intros rest H; [reflexivity|].
  cbn [app occurrences prefixb].
  destruct (N.eqb_spec a x) as [E|E].
  - exfalso. apply (H x); [left; reflexivity | congruence].
  - cbn [andb]. apply IH. intros y Hy. apply H. right. exact Hy.
Qed.

Lemma scan_lits_count (a : char) (m' : text) :
  ~ In a m' ->
  forall n s, length s <= n ->
              length (scan (lits (a :: m')) s 0) = occurrences (a :: m') s.
Proof.
  intros Ha. induction n as [|n IH]; intros s Hs.
  - destruct s; [|cbn in Hs; lia].
    cbn [scan occurrences]. rewrite match_at_lits. reflexivity.
  - destruct (prefixb (a :: m') s) eqn:P.
    + pose proof (prefixb_split _ _ P) as E.
      remember (skipn (length (a :: m')) s) as rest eqn:R. clear R.
      subst s. rewrite length_app in Hs. cbn [length] in Hs.
      rewrite (@scan_match (lits (a :: m')) ((a :: m') ++ rest) rest []).
      * cbn [length]. rewrite IH by lia.
        cbn [app occurrences].
        change (a :: m' ++ rest) with ((a :: m') ++ rest).
        rewrite prefixb_app. cbn [Nat.add]. f_equal. symmetry.
        apply occurrences_skip. intros x Hx E. subst x. exact (Ha Hx).
      * rewrite match_at_lits, prefixb_app, skipn_length_app. reflexivity.
      * rewrite length_app. cbn [length]. lia.
    + destruct s as [|x s].
      * cbn [scan occurrences]. rewrite match_at_lits, P. reflexivity.
      * cbn [scan occurrences]. rewrite match_at_lits, P. cbn [Nat.add].
        apply IH. cbn in Hs. lia.
Qed.

(** X2.  The timeout count is the number of places in the text where
    @Timeout starts, and the mocking count the number of places where the
    literal annotation @ExtendWith(MockitoExtension.class) starts. *)
Theorem literal_counts_are_occurrences (content : text) :
  timeouts (analyze content) = occurrences (str "@Timeout") content /\
  mockito_usage (analyze content) =
    occurrences (str "@ExtendWith(MockitoExtension.class)") content.
Proof.
  unfold analyze, findall0. cbn [timeouts mockito_usage].
  rewrite !length_map. split.
  - apply (@scan_lits_count 64%N (str "Timeout")) with (n := length content);
      [|apply le_n].
    intros H. cbv in H. repeat (destruct H as [H|H]; [discriminate H|]). exact H.
  - apply (@scan_lits_count 64%N (str "ExtendWith(MockitoExtension.class)"))
      with (n := length content); [|apply le_n].
    intros H. cbv in H. repeat (destruct H as [H|H]; [discriminate H|]). exact H.
Qed.

(** X3.  The four counted fields of a text are the sums of what their
    recognizers count in each of its lines. *)
Theorem counts_add_over_lines (ls : list text) :
  assertions (analyze (unlines ls)) =
    list_sum (map (fun l => assertions (analyze l)) ls) /\
  timeouts (analyze (unlines ls)) =
    list_sum (map (fun l => timeouts (analyze l)) ls) /\
  concurrent_patterns (analyze (unlines ls)) =
    list_sum (map (fun l => concurrent_patterns (analyze l)) ls) /\
  mockito_usage (analyze (unlines ls)) =
    list_sum (map (fun l => mockito_usage (analyze l)) ls).
Proof.
  split; [exact (count_unlines assertions_re ls eq_refl eq_refl)|].
  split; [exact (count_unlines timeouts_re ls eq_refl eq_refl)|].
  split; [exact (count_unlines concurrent_patterns_re ls eq_refl eq_refl)|].
  exact (count_unlines mockito_re ls eq_refl eq_refl).
Qed.

(** ** The size of the report *)

Lemma line_feeds_app (a b : text) :
  line_feeds (a ++ b) = line_feeds a + line_feeds b.
Proof. unfold line_feeds. rewrite filter_app. apply length_app. Qed.

Lemma line_feeds_digits (d : Decimal.uint) :
  line_feeds (str (NilEmpty.string_of_uint d)) = 0.
Proof. induction d; cbn [NilEmpty.string_of_uint]; auto. Qed.

Lemma line_feeds_dec (n : nat) : line_feeds (dec n) = 0.
Proof.
  unfold dec, NilZero.string_of_uint.
  destruct (Nat.to_uint n) eqn:E; try reflexivity;
    rewrite <- E; apply line_feeds_digits || (rewrite E; apply line_feeds_digits).
Qed.

Lemma line_feeds_print (line : text) (out : stdout) :
  line_feeds (rendered (print line out)) =
  line_feeds (rendered out) + S (line_feeds line).
Proof.
  unfold print. rewrite rendered_app, line_feeds_app. f_equal.
  unfold rendered. cbn [flat_map]. rewrite app_nil_r, line_feeds_app.
  change (line_feeds [nl]) with 1. lia.
Qed.

Lemma line_feeds_for_each (A : Type) (xs : list A) (body : A -> action)
      (f : A -> nat) :
  (forall x out, line_feeds (rendered (body x out)) =
                 line_feeds (rendered out) + f x) ->
  forall out, line_feeds (rendered (for_each xs body out)) =
              line_feeds (rendered out) + list_sum (map f xs).
Proof.
  intros Hb. unfold for_each.
  induction xs as [|x xs IH]; intros out; cbn [fold_left map list_sum].
  - symmetry. apply Nat.add_0_r.
  - rewrite IH, Hb. symmetry. apply Nat.add_assoc.
Qed.

Lemma map_snd_enumerate (A : Type) (l : list A) : map snd (enumerate l) = l.
Proof.
  unfold enumerate. generalize 0 as k.
  induction l as [|x l IH]; intros k; cbn [length seq combine map]; [reflexivity|].
  rewrite IH. reflexivity.
Qed.

(** The line feeds of a text that is written out in full. *)
Ltac line_feeds_const :=
  repeat match goal with
         | |- context [line_feeds (str ?s)] =>
             let v := eval vm_compute in (line_feeds (str s)) in
             change (line_feeds (str s)) with v
         | |- context [line_feeds (nl :: str ?s)] =>
             let v := eval vm_compute in (line_feeds (nl :: str s)) in
             change (line_feeds (nl :: str s)) with v
         | |- context [line_feeds banner] =>
             let v := eval vm_compute in (line_feeds banner) in
             change (line_feeds banner) with v
         end.

Ltac line_feeds_step :=
  rewrite ?line_feeds_print, ?line_feeds_app, ?line_feeds_dec; line_feeds_const.

(** X4.  The text of the report holds 56 line feeds for its fixed lines and
    section titles, and beyond these one line feed, plus those inside the
    names shown, for every nested group, for each of the first 10 test
    methods and for each of the first 5 filtered helpers, and one more when
    more than 10 test methods exist. *)
Theorem report_line_feeds (r : analysis) :
  line_feeds (rendered (report r [])) =
    56
    + list_sum (map (fun g => 1 + line_feeds (snd g) + line_feeds (fst g))
                    (nested_classes r))
    + list_sum (map (fun m => 1 + line_feeds m) (firstn 10 (test_methods r)))
    + (if 10 <? length (test_methods r) then 1 else 0)
    + list_sum (map (fun h => 1 + line_feeds h)
                    (firstn 5 (filter relevant (helper_methods r)))).
Proof.
  unfold report, and_then.
  rewrite line_feeds_print. line_feeds_const.
  (* summary *)
  unfold print_summary, and_then. line_feeds_step.
  (* performance *)
  unfold print_performance, and_then. line_feeds_step.
  (* features *)
  unfold print_features, and_then.
  rewrite (line_feeds_for_each features
             (fun feature => print (str "   + " ++ feature))
             (fun feature => S (line_feeds (str "   + " ++ feature))))
    by (intros x out; apply line_feeds_print).
  change (list_sum (map (fun feature => S (line_feeds (str "   + " ++ feature)))
                        features)) with 6.
  line_feeds_step.
  (* categories *)
  unfold print_categories, and_then.
  rewrite (line_feeds_for_each categories
             (fun category => print (str "   + " ++ category))
             (fun category => S (line_feeds (str "   + " ++ category))))
    by (intros x out; apply line_feeds_print).
  change (list_sum (map (fun category => S (line_feeds (str "   + " ++ category)))
                        categories)) with 11.
  line_feeds_step.
  (* helpers *)
  unfold print_helpers, and_then.
  rewrite (line_feeds_for_each
             (firstn 5 (filter relevant (helper_methods r)))
             (fun helper => print (str "   * " ++ helper))
             (fun h => 1 + line_feeds h))
    by (intros x out; rewrite line_feeds_print, line_feeds_app;
        line_feeds_const; lia).
  line_feeds_step.
  (* key test methods *)
  unfold print_key_methods, and_then.
  assert (K : forall out,
             line_feeds
               (rendered
                  ((if 10 <? length (test_methods r)
                    then print (str "   ... and " ++
                                dec (length (test_methods r) - 10) ++
                                str " more")
                    else skip) out)) =
             line_feeds (rendered out) +
             (if 10 <? length (test_methods r) then 1 else 0)).
  { intros out. destruct (10 <? length (test_methods r)).
    - line_feeds_step. lia.
    - unfold skip. lia. }
  rewrite K.
  rewrite (line_feeds_for_each
             (enumerate (firstn 10 (test_methods r)))
             (fun im : nat * list N =>
                let '(i, method) := im in print (str "   * " ++ method))
             (fun im => 1 + line_feeds (snd im)))
    by (intros [i m] out; rewrite line_feeds_print, line_feeds_app;
        line_feeds_const; cbn [snd]; lia).
  rewrite <- (map_map snd (fun m => 1 + line_feeds m)), map_snd_enumerate.
  line_feeds_step.
  (* nested classes *)
  unfold print_nested, and_then.
  rewrite (line_feeds_for_each (nested_classes r)
             (fun g : list N * list N =>
                let '(display_name, class_name) := g in
                print (str "   * " ++ class_name ++ str ": " ++ display_name))
             (fun g => 1 + line_feeds (snd g) + line_feeds (fst g)))
    by (intros [d c] out; rewrite line_feeds_print, !line_feeds_app;
        line_feeds_const; cbn [fst snd]; lia).
  line_feeds_step.
  (* coverage, structure, heading *)
  unfold print_coverage, and_then. line_feeds_step.
  assert (Y : line_feeds (if 0 <? mockito_usage r then str "Yes" else str "No")
              = 0) by (destruct (0 <? mockito_usage r); reflexivity).
  rewrite Y.
  unfold print_structure, and_then. line_feeds_step.
  unfold print_heading, and_then. line_feeds_step.
  change (line_feeds (rendered [])) with 0. lia.
Qed.

(** ** Case *)

Lemma is_ascii_upper (c : char) : is_ascii (ascii_to_upper c) = is_ascii c.
Proof.
  unfold is_ascii, ascii_to_upper, in_range.
  destruct (N.leb_spec 97 c); destruct (N.leb_spec c 122); cbn [andb];
    try reflexivity.
  destruct (N.ltb_spec (c - 32) 128); destruct (N.ltb_spec c 128);
    try reflexivity; lia.
Qed.

Lemma ascii_lower_upper (c : char) :
  ascii_lower (ascii_to_upper c) = ascii_lower c.
Proof.
  unfold ascii_lower, ascii_upper, ascii_to_upper, in_range.
  destruct (N.leb_spec 97 c); destruct (N.leb_spec c 122); cbn [andb];
    try reflexivity.
  destruct (N.leb_spec 65 (c - 32)); destruct (N.leb_spec (c - 32) 90);
    destruct (N.leb_spec 65 c); destruct (N.leb_spec c 90); cbn [andb]; lia.
Qed.

Lemma upper_beyond_ascii (c : char) :
  is_ascii c = false -> ascii_to_upper c = c.
Proof.
  unfold is_ascii, ascii_to_upper, in_range. intros H.
  apply N.ltb_ge in H.
  destruct (N.leb_spec 97 c); destruct (N.leb_spec c 122); cbn [andb];
    try reflexivity; lia.
Qed.

Lemma upper_is_nl (c : char) : N.eqb (ascii_to_upper c) nl = N.eqb c nl.
Proof.
  unfold ascii_to_upper, in_range, nl.
  destruct (N.leb_spec 97 c); destruct (N.leb_spec c 122); cbn [andb];
    try reflexivity.
  destruct (N.eqb_spec (c - 32) 10); destruct (N.eqb_spec c 10);
    try reflexivity; lia.
Qed.

Lemma accepts_upper (k : cls) (c : char) :
  case_blind (Chr k) = true -> accepts k (ascii_to_upper c) = accepts k c.
Proof.
  destruct k as [p|p| | |d|cs]; cbn [case_blind]; try discriminate; intros _;
    cbn [accepts].
  - unfold ieq. rewrite is_ascii_upper, ascii_lower_upper.
    destruct (is_ascii c) eqn:E; [reflexivity|].
    rewrite (upper_beyond_ascii _ E). reflexivity.
  - rewrite upper_is_nl. reflexivity.
Qed.

Lemma iter_transport (T : state -> state) (body : state -> list state) (g : bool) :
  (forall x y, (length (fst (T x)) <? length (fst (T y))) =
               (length (fst x) <? length (fst y))) ->
  (forall st, body (T st) = map T (body st)) ->
  forall f st, iter body g f (T st) = map T (iter body g f st).
Proof.
  intros HT Hb. induction f as [|f IH]; intros st; cbn [iter]; [reflexivity|].
  rewrite Hb.
  rewrite (flat_map_map_comm T T
             (fun x => if length (fst x) <? length (fst (T st))
                       then iter body g f x else [])
             (fun x => if length (fst x) <? length (fst st)
                       then iter body g f x else [])).
  - destruct g; [rewrite map_app|]; reflexivity.
  - intros x. rewrite HT.
    destruct (length (fst x) <? length (fst st)); [apply IH | reflexivity].
Qed.

Lemma ms_upper (r : regex) :
  case_blind r = true ->
  forall st, ms r (upper_state st) = map upper_state (ms r st).
Proof.
  induction r as [k| |a1 IH1 a2 IH2|a1 IH1 a2 IH2|g a IHa|i a IHa];
    intros B st; try discriminate.
  - destruct st as [[|x s] c]; cbn [ms upper_state fst snd map]; [reflexivity|].
    rewrite (accepts_upper _ _ B). destruct (accepts k x); reflexivity.
  - reflexivity.
  - cbn [case_blind] in B. apply andb_prop in B as [B1 B2]. cbn [ms].
    rewrite (IH1 B1). apply flat_map_map_comm. exact (IH2 B2).
  - cbn [case_blind] in B. apply andb_prop in B as [B1 B2]. cbn [ms].
    rewrite (IH1 B1), (IH2 B2), map_app. reflexivity.
  - cbn [case_blind] in B. cbn [ms].
    replace (length (fst (upper_state st))) with (length (fst st))
      by (unfold upper_state; cbn [fst]; symmetry; apply length_map).
    apply iter_transport; [|exact (IHa B)].
    intros x y. unfold upper_state. cbn [fst]. rewrite !length_map. reflexivity.
Qed.

Lemma scan_upper_length (r : regex) :
  case_blind r = true ->
  forall s k, length (scan r (map ascii_to_upper s) k) = length (scan r s k).
Proof.
  intros B.
  assert (M : forall s, match_at r (map ascii_to_upper s) =
                        option_map upper_state (match_at r s)).
  { intros s. unfold match_at.
    change (map ascii_to_upper s, @nil (nat * list N)) with (upper_state (s, [])).
    rewrite (ms_upper _ B). destruct (ms r (s, [])); reflexivity. }
  induction s as [|x s IH]; intros k.
  - destruct k; [|reflexivity]. specialize (M []). cbn [map] in M.
    cbn [map scan]. rewrite M. destruct (match_at r []) as [[rest c]|]; reflexivity.
  - destruct k; [|cbn [map scan]; apply IH].
    specialize (M (x :: s)). cbn [map] in M. cbn [map scan]. rewrite M.
    destruct (match_at r (x :: s)) as [[rest c]|];
      cbn [option_map upper_state fst snd]; cbv beta iota zeta.
    + cbn [length]. rewrite !length_map. f_equal. apply IH.
    + apply IH.
Qed.

(** X5.  The concurrency count ignores the case of ASCII letters: writing
    every small ASCII letter of the text as a capital leaves it unchanged. *)
Theorem concurrency_count_ignores_case (content : text) :
  concurrent_patterns (analyze (map ascii_to_upper content)) =
  concurrent_patterns (analyze content).
Proof.
  unfold analyze, findall0. cbn [concurrent_patterns]. rewrite !length_map.
  apply scan_upper_length. reflexivity.
Qed.

Lemma lower_upper (h : text) :
  forallb is_ascii h = true -> lower (map ascii_to_upper h) = lower h.
Proof.
  intros H. unfold lower.
  assert (E : forallb is_ascii (map ascii_to_upper h) = true).
  { clear -H. induction h as [|x h IH]; [reflexivity|].
    cbn [map forallb] in *. apply andb_prop in H as [Hx Hh].
    rewrite is_ascii_upper, Hx, (IH Hh). reflexivity. }
  rewrite E, H, map_map. apply map_ext. apply ascii_lower_upper.
Qed.

(** X6.  For a helper name made of ASCII characters the filter of the Helper
    Methods section does not depend on the case of its letters. *)
Theorem relevant_ignores_case (h : text) :
  forallb is_ascii h = true -> relevant (map ascii_to_upper h) = relevant h.
Proof.
  intros H. unfold relevant. rewrite (lower_upper _ H). reflexivity.
Qed.

(** ** What the groups capture *)

Lemma iter_captures (P : nat -> text -> Prop) (T : text)
      (body : state -> list state) (g : bool) :
  (forall st st', In st' (body st) -> exists w, fst st = w ++ fst st') ->
  (forall st st', (exists pre, T = pre ++ fst st) -> In st' (body st) ->
                  exists new, snd st' = new ++ snd st /\
                              forall i v, In (i, v) new -> P i v) ->
  forall f st st',
    (exists pre, T = pre ++ fst st) -> In st' (iter body g f st) ->
    exists new, snd st' = new ++ snd st /\ forall i v, In (i, v) new -> P i v.
Proof.
  intros Hs Hb. induction f as [|f IH]; intros st st' HT H.
  - destruct H as [H|[]]. subst. exists []. split; [reflexivity|]. intros i v [].
  - apply iter_in in H as [H|(x & Hx & _ & Hin)].
    + subst. exists []. split; [reflexivity|]. intros i v [].
    + destruct (Hb _ _ HT Hx) as (n1 & E1 & P1).
      assert (HTx : exists pre, T = pre ++ fst x).
      { destruct HT as [pre E]. destruct (Hs _ _ Hx) as [w Ew].
        exists (pre ++ w). rewrite E, Ew. apply app_assoc. }
      destruct (IH _ _ HTx Hin) as (n2 & E2 & P2).
      exists (n2 ++ n1). rewrite E2, E1. split; [apply app_assoc|].
      intros i v Hi. apply in_app_or in Hi as [Hi|Hi]; eauto.
Qed.

(** A match adds captures for the groups of its pattern: each one satisfies
    what is known of the group and is a piece of the text, and every group on
    the match's path is among them. *)
Lemma ms_captures (Q : nat -> text -> Prop) (T : text) (r : regex) :
  groups_ok Q r ->
  forall st st',
    (exists pre, T = pre ++ fst st) -> In st' (ms r st) ->
    exists new,
      snd st' = new ++ snd st /\
      (forall i v, In (i, v) new -> Q i v /\ substring v T) /\
      (forall i, In i (must_groups r) -> exists v, In (i, v) new).
Proof.
  induction r as [k| |a IHa b IHb|a IHa b IHb|g a IHa|i a IHa];
    cbn [groups_ok must_groups]; intros G st st' HT.
  - cbn [ms]. destruct (fst st) as [|c tl]; [intros []|].
    destruct (accepts k c); [|intros []].
    intros [H|[]]. subst st'. exists []. split; [reflexivity|].
    split; [intros i v [] | intros i []].
  - intros [H|[]]. subst. exists []. split; [reflexivity|].
    split; [intros i v [] | intros i []].
  - destruct G as [Ga Gb]. rewrite in_ms_seq. intros (x & Hx & H).
    destruct (IHa Ga _ _ HT Hx) as (n1 & E1 & P1 & M1).
    assert (HTx : exists pre, T = pre ++ fst x).
    { destruct HT as [pre E]. destruct (ms_suffix _ _ _ Hx) as [w Ew].
      exists (pre ++ w). rewrite E, Ew. apply app_assoc. }
    destruct (IHb Gb _ _ HTx H) as (n2 & E2 & P2 & M2).
    exists (n2 ++ n1). rewrite E2, E1. split; [apply app_assoc|]. split.
    + intros i v Hi. apply in_app_or in Hi as [Hi|Hi]; eauto.
    + intros i Hi. apply in_app_or in Hi as [Hi|Hi].
      * destruct (M1 _ Hi) as [v Hv]. exists v. apply in_or_app. auto.
      * destruct (M2 _ Hi) as [v Hv]. exists v. apply in_or_app. auto.
  - destruct G as [Ga Gb]. cbn [ms]. intros H.
    apply in_app_or in H as [H|H].
    + destruct (IHa Ga _ _ HT H) as (n & E & P & _). exists n.
      split; [exact E|]. split; [exact P | intros i []].
    + destruct (IHb Gb _ _ HT H) as (n & E & P & _). exists n.
      split; [exact E|]. split; [exact P | intros i []].
  - cbn [ms]. intros H.
    destruct (@iter_captures (fun i v => Q i v /\ substring v T) T (ms a) g
                (ms_suffix a)
                (fun st0 st1 H0 H1 =>
                   match IHa G st0 st1 H0 H1 with
                   | ex_intro _ n (conj E (conj P _)) =>
                       ex_intro _ n (conj E P)
                   end)
                _ _ _ HT H) as (n & E & P).
    exists n. split; [exact E|]. split; [exact P | intros i []].
  - destruct G as [Gi Ga]. cbn [ms]. rewrite in_map_iff.
    intros (x & E & Hx). cbv beta in E. subst st'. cbn [fst snd].
    destruct (IHa Ga _ _ HT Hx) as (n & En & Pn & Mn).
    destruct (ms_suffix _ _ _ Hx) as [w Ew].
    rewrite Ew, firstn_consumed, En.
    eexists (_ :: n). split; [reflexivity|]. split.
    + intros j v [Hj|Hj]; [|eauto].
      injection Hj as <- <-. split.
      * destruct st as [s c]. exact (Gi s c x w Hx Ew).
      * destruct HT as [pre ET]. exists pre, (fst x). rewrite ET, Ew. reflexivity.
    + intros j [<-|Hj].
      * eexists. left. reflexivity.
      * destruct (Mn _ Hj) as [v Hv]. exists v. right. exact Hv.
Qed.

Lemma scan_in_suffix (p : regex) (m : found) :
  forall s k, In m (scan p s k) ->
              exists pre s' rest,
                s = pre ++ s' /\ match_at p s' = Some (rest, snd m).
Proof.
  induction s as [|x s IH]; intros k H.
  - destruct k; cbn [scan] in H; [|destruct H].
    destruct (match_at p []) as [[rest c]|] eqn:E; [|destruct H].
    destruct H as [H|[]]. subst m. exists [], [], rest. auto.
  - assert (T : forall j, In m (scan p s j) ->
                exists pre s' rest,
                  x :: s = pre ++ s' /\ match_at p s' = Some (rest, snd m)).
    { intros j Hj. destruct (IH _ Hj) as (pre & s' & rest & E & M).
      exists (x :: pre), s', rest. rewrite E. auto. }
    destruct k; cbn [scan] in H; [|eauto].
    destruct (match_at p (x :: s)) as [[rest c]|] eqn:E; [|eauto].
    destruct H as [H|H]; [|eauto]. subst m. exists [], (x :: s), rest. auto.
Qed.

Lemma group_found (i : nat) (new c : caps) :
  (exists v, In (i, v) new) ->
  exists v, In (i, v) new /\ group i (new ++ c) = v.
Proof.
  induction new as [|[j u] new IH]; intros [v Hv]; [destruct Hv|].
  cbn [app group]. destruct (Nat.eqb_spec i j) as [E|E].
  - subst j. exists u. split; [left|]; reflexivity.
  - destruct Hv as [Hv|Hv]; [congruence|].
    destruct (IH (ex_intro _ v Hv)) as (v' & Hin & Eg).
    exists v'. split; [right; exact Hin | exact Eg].
Qed.

(** What [re.findall] reports for a group that every match sets. *)
Lemma captured_group (Q : nat -> text -> Prop) (p : regex) (i : nat)
      (content : text) (m : found) :
  groups_ok Q p -> In i (must_groups p) -> In m (scan p content 0) ->
  Q i (group i (snd m)) /\ substring (group i (snd m)) content.
Proof.
  intros G Hi Hm.
  apply scan_in_suffix in Hm as (pre & s' & rest & E & Hm).
  apply match_at_in in Hm.
  destruct (@ms_captures Q content p G (s', []) (rest, snd m)
              (ex_intro _ pre E) Hm) as (new & En & P & M).
  cbn [snd] in En. rewrite En.
  destruct (@group_found i new [] (M i Hi)) as (v & Hv & Eg).
  rewrite Eg. exact (P i v Hv).
Qed.

Lemma groups_ok_lits (Q : nat -> text -> Prop) (l : text) : groups_ok Q (lits l).
Proof. induction l; cbn [lits groups_ok]; auto. Qed.

Lemma plus_run (k : cls) (s : text) (c : caps) (st' : state) (w : text) :
  In st' (ms (Seq (Chr k) (Star true (Chr k))) (s, c)) -> s = w ++ fst st' ->
  w <> [] /\ forallb (accepts k) w = true.
Proof.
  intros H E. apply (ms_plus_chr_in k s c st') in H as (_ & w' & Hn & E' & Hw).
  rewrite E' in E. apply app_inv_tail in E. subst w'. auto.
Qed.

Lemma run_identifier (w : text) :
  w <> [] -> forallb (accepts Word) w = true -> identifier w = true.
Proof. destruct w; [congruence|]. intros _ H. exact H. Qed.

Ltac groups_ok_tac :=
  repeat lazymatch goal with
         | |- groups_ok _ (lits _) => apply groups_ok_lits
         | |- True => exact I
         | |- _ /\ _ => split
         end.

Lemma test_methods_re_groups :
  groups_ok (fun _ w => identifier w = true) test_methods_re.
Proof.
  unfold test_methods_re, ws1, word1, plus. cbn [groups_ok]. groups_ok_tac.
  intros s c st' w H E. destruct (@plus_run _ _ _ _ _ H E). apply run_identifier; auto.
Qed.

Lemma helper_methods_re_groups :
  groups_ok (fun _ w => identifier w = true) helper_methods_re.
Proof.
  unfold helper_methods_re, ws1, word1, plus. cbn [groups_ok]. groups_ok_tac.
  intros s c st' w H E. destruct (@plus_run _ _ _ _ _ H E). apply run_identifier; auto.
Qed.

Lemma imports_re_groups :
  groups_ok (fun _ w => w <> [] /\ ~ In semicolon w) imports_re.
Proof.
  unfold imports_re, ws1, plus. cbn [groups_ok]. groups_ok_tac.
  intros s c st' w H E. destruct (@plus_run _ _ _ _ _ H E) as [Hn Hw].
  split; [exact Hn|].
    intros Hq. rewrite forallb_forall in Hw. specialize (Hw _ Hq).
    cbn in Hw. discriminate Hw.
Qed.

Lemma nested_classes_re_groups :
  groups_ok (fun i w => i = 2 -> identifier w = true) nested_classes_re.
Proof.
  unfold nested_classes_re, ws1, word1, plus. cbn [groups_ok]. groups_ok_tac.
  - intros s c st' w H E D. discriminate D.
  - intros s c st' w H E _. destruct (@plus_run _ _ _ _ _ H E).
    apply run_identifier; auto.
Qed.

(** X7.  Every test-method name of an analysis is a non-empty run of word
    characters that stands in the text. *)
Theorem test_method_names_from_text (content name : text) :
  In name (test_methods (analyze content)) ->
  identifier name = true /\ substring name content.
Proof.
  unfold analyze, findall1. cbn [test_methods]. rewrite in_map_iff.
  intros (m & <- & Hm).
  apply (@captured_group _ test_methods_re 1 content m test_methods_re_groups);
    [|exact Hm].
  vm_compute. left. reflexivity.
Qed.

(** X8.  Every helper-method name of an analysis is a non-empty run of word
    characters that stands in the text. *)
Theorem helper_method_names_from_text (content name : text) :
  In name (helper_methods (analyze content)) ->
  identifier name = true /\ substring name content.
Proof.
  unfold analyze, findall1. cbn [helper_methods]. rewrite in_map_iff.
  intros (m & <- & Hm).
  apply (@captured_group _ helper_methods_re 1 content m helper_methods_re_groups);
    [|exact Hm].
  vm_compute. left. reflexivity.
Qed.

(** X9.  Every import of an analysis is a non-empty piece of the text without
    a semicolon. *)
Theorem import_names_from_text (content name : text) :
  In name (imports (analyze content)) ->
  name <> [] /\ ~ In semicolon name /\ substring name content.
Proof.
  unfold analyze, findall1. cbn [imports]. rewrite in_map_iff.
  intros (m & <- & Hm).
  destruct (@captured_group _ imports_re 1 content m imports_re_groups) as [[A B] C];
    [|exact Hm|auto].
  vm_compute. left. reflexivity.
Qed.

(** X10.  In every pair of the nested groups the class name is a non-empty
    run of word characters, and both the display name and the class name
    stand in the text. *)
Theorem nested_class_names_from_text (content display_name class_name : text) :
  In (display_name, class_name) (nested_classes (analyze content)) ->
  identifier class_name = true /\
  substring class_name content /\ substring display_name content.
Proof.
  unfold analyze, findall2. cbn [nested_classes]. rewrite in_map_iff.
  intros (m & E & Hm).
  assert (E1 : group 1 (snd m) = display_name) by congruence.
  assert (E2 : group 2 (snd m) = class_name) by congruence.
  clear E.
  destruct (@captured_group _ nested_classes_re 2 content m nested_classes_re_groups)
    as [A B]; [vm_compute; right; left; reflexivity | exact Hm |].
  destruct (@captured_group _ nested_classes_re 1 content m nested_classes_re_groups)
    as [_ C]; [vm_compute; left; reflexivity | exact Hm |].
  rewrite <- E1, <- E2. auto.
Qed.

(** ** Annotations between the test marker and the method *)

Lemma first_star_loop (a : regex) (st x y : state) :
  hd_error (ms a st) = Some x -> length (fst x) < length (fst st) ->
  hd_error (ms (Star true a) x) = Some y ->
  hd_error (ms (Star true a) st) = Some y.
Proof.
  intros Ha L Hx. cbn [ms] in *. cbn [iter].
  destruct (ms a st) as [|x' l]; [discriminate|].
  cbn in Ha. injection Ha as ->. cbn [flat_map].
  pose proof L as Lb. apply Nat.ltb_lt in Lb. rewrite Lb.
  rewrite (@iter_fuel (ms a) true (length (fst st)) (S (length (fst x))) x)
    by lia.
  destruct (iter (ms a) true (S (length (fst x))) x) as [|z zs]; [discriminate|].
  exact Hx.
Qed.

Lemma ms_seq_eq (a b : regex) (st : state) :
  ms (Seq a b) st = flat_map (ms b) (ms a st).
Proof. reflexivity. Qed.

Lemma flat_map_nil (A B : Type) (f : A -> list B) (l : list A) :
  (forall x, In x l -> f x = []) -> flat_map f l = [].
Proof.
  induction l as [|x l IH]; intros H; [reflexivity|].
  cbn [flat_map]. rewrite (H x) by (left; reflexivity).
  apply IH. intros y Hy. apply H. right. exact Hy.
Qed.

(** A run of characters of one kind that starts a text cannot reach past the
    first character of another kind. *)
Lemma run_within (P : char -> bool) :
  forall w t n b r,
    w ++ t = n ++ b :: r -> forallb P w = true -> P b = false ->
    exists n2, n = w ++ n2 /\ t = n2 ++ b :: r.
Proof.
  induction w as [|x w IH]; intros t n b r E Hw Hb.
  - exists n. auto.
  - cbn [forallb] in Hw. apply andb_prop in Hw as [Hx Hw].
    destruct n as [|x' n]; cbn [app] in E; injection E as E1 E2.
    + subst x. congruence.
    + subst x'. destruct (IH _ _ _ _ E2 Hw Hb) as (n2 & En & Et).
      exists n2. rewrite En. auto.
Qed.

(** The lazy dot-star in front of a literal character reads up to the first
    place where that character stands and the rest of the pattern matches;
    when the text up to there does not hold the character, that is the first
    place where it stands. *)
Lemma lazy_until (a : char) (K : regex) :
  forall args tail c f y,
    (forall x, In x args -> x <> a) ->
    length (args ++ a :: tail) < f ->
    hd_error (ms K (tail, c)) = Some y ->
    hd_error (flat_map (ms (Seq (lits [a]) K))
                (iter (ms (Chr (Dot true))) false f (args ++ a :: tail, c)))
    = Some y.
Proof.
  induction args as [|x args IH]; intros tail c f y Hx Hf Hy;
    (destruct f as [|f]; [lia|]); cbn [iter flat_map app].
  - rewrite ms_seq_lits. cbn [prefixb]. rewrite N.eqb_refl. cbn [andb length skipn].
    destruct (ms K (tail, c)) as [|z l]; [discriminate|]. exact Hy.
  - rewrite ms_seq_lits. cbn [prefixb].
    destruct (N.eqb_spec a x) as [E|E];
      [exfalso; apply (Hx x); [left; reflexivity | congruence]|].
    cbn [andb app].
    assert (B : ms (Chr (Dot true)) (x :: args ++ a :: tail, c) =
                [(args ++ a :: tail, c)]) by reflexivity.
    rewrite B. cbn [flat_map fst length].
    assert (L : (length (args ++ a :: tail) <? S (length (args ++ a :: tail)))
                = true) by (apply Nat.ltb_lt; lia).
    rewrite L, app_nil_r.
    apply IH; [|cbn [app length] in Hf; lia|exact Hy].
    intros z Hz. apply Hx. right. exact Hz.
Qed.

Lemma first_lazy_until (a : char) (K : regex) (args tail : text) (c : caps)
      (y : state) :
  (forall x, In x args -> x <> a) ->
  hd_error (ms K (tail, c)) = Some y ->
  hd_error (ms (Seq (Star false (Chr (Dot true))) (Seq (lits [a]) K))
               (args ++ a :: tail, c)) = Some y.
Proof.
  intros Hx Hy. cbn [ms fst]. apply lazy_until; auto.
Qed.

Lemma not_word_lparen : is_word 40%N = false.
Proof. reflexivity. Qed.

Lemma not_space_lparen : is_space 40%N = false.
Proof. reflexivity. Qed.

Lemma length_arg_annotations_text (l : list arg_annotation) (rest : text) :
  length rest <= length (arg_annotations_text l rest).
Proof.
  induction l as [|a l IH]; cbn [arg_annotations_text]; [lia|].
  rewrite !length_app. lia.
Qed.

Lemma length_plain_annotations_text (l : list plain_annotation) (rest : text) :
  length rest <= length (plain_annotations_text l rest).
Proof.
  induction l as [|a l IH]; cbn [plain_annotations_text]; [lia|].
  rewrite !length_app. lia.
Qed.

(** What follows the test marker's whitespace is not whitespace. *)
Lemma stops_space_annotations (l1 : list arg_annotation)
      (l2 : list plain_annotation) (modifier r : text) :
  identifier modifier = true ->
  stops Space
    (arg_annotations_text l1 (plain_annotations_text l2 (modifier ++ r))) = true.
Proof.
  intros Im. destruct l1 as [|a l1]; [|reflexivity].
  destruct l2 as [|b l2]; [|reflexivity].
  apply stops_space_identifier. exact Im.
Qed.

Lemma stops_space_plain (l2 : list plain_annotation) (modifier r : text) :
  identifier modifier = true ->
  stops Space (plain_annotations_text l2 (modifier ++ r)) = true.
Proof. exact (stops_space_annotations [] l2 modifier r). Qed.

(** The pattern of an annotation with arguments does not match where an
    annotation without arguments stands. *)
Lemma arg_pattern_fails_on_plain (X : regex) (b : plain_annotation)
      (rest : text) (c : caps) :
  plain_annotation_ok b = true ->
  ms (Seq (lits (str "@")) (Seq (plus (Chr Word)) (Seq (lits (str "(")) X)))
     (str "@" ++ pa_name b ++ pa_sp b ++ rest, c) = [].
Proof.
  unfold plain_annotation_ok. intros H. apply andb_prop in H as [Hn Hs].
  rewrite ms_seq_lits, prefixb_app, skipn_length_app.
  rewrite ms_seq_eq. apply flat_map_nil. intros [t c'] Ht.
  apply ms_plus_chr_in in Ht as (_ & w & _ & E & Hw). cbn [fst] in E.
  destruct (pa_sp b) as [|s0 sp] eqn:Es; [discriminate Hs|].
  cbn [blank forallb] in Hs. apply andb_prop in Hs as [Hs0 _].
  cbn [app] in E. symmetry in E.
  destruct (@run_within (accepts Word) w t (pa_name b) s0 (sp ++ rest) E Hw
              (space_not_word _ Hs0)) as (n2 & En & Et).
  rewrite ms_seq_lits. change (str "(") with [40%N]. subst t.
  destruct n2 as [|z n2]; cbn [app prefixb].
  - destruct (N.eqb_spec 40 s0) as [<-|]; [|reflexivity].
    rewrite not_space_lparen in Hs0. discriminate.
  - destruct (N.eqb_spec 40 z) as [<-|]; [|reflexivity].
    destruct (identifier_run _ Hn) as [_ Hall].
    rewrite En, forallb_app in Hall. apply andb_prop in Hall as [_ Hall].
    cbn [forallb accepts] in Hall. rewrite not_word_lparen in Hall.
    discriminate.
Qed.

Lemma first_arg_annotations (l1 : list arg_annotation)
      (l2 : list plain_annotation) (modifier r : text) (c : caps) :
  forallb arg_annotation_ok l1 = true ->
  forallb plain_annotation_ok l2 = true ->
  identifier modifier = true ->
  hd_error
    (ms (Star true
           (Seq (lits (str "@"))
              (Seq (plus (Chr Word))
                 (Seq (lits (str "("))
                    (Seq (Star false (Chr (Dot true)))
                       (Seq (lits (str ")")) (plus (Chr Space))))))))
        (arg_annotations_text l1 (plain_annotations_text l2 (modifier ++ r)), c))
  = Some (plain_annotations_text l2 (modifier ++ r), c).
Proof.
  intros H1 H2 Im. induction l1 as [|a l1 IH]; cbn [arg_annotations_text].
  - apply first_star_skip. destruct l2 as [|b l2]; cbn [plain_annotations_text].
    + apply ms_at_identifier. exact Im.
    + cbn [forallb] in H2. apply andb_prop in H2 as [Hb _].
      apply arg_pattern_fails_on_plain. exact Hb.
  - cbn [forallb] in H1. apply andb_prop in H1 as [Ha H1].
    unfold arg_annotation_ok in Ha.
    apply andb_prop in Ha as [Ha Hsp]. apply andb_prop in Ha as [Hn Hargs].
    destruct (identifier_run _ Hn) as [Nn Rn].
    destruct (blank_run _ Hsp) as [Ns Rs].
    eapply first_star_loop; [| |exact (IH H1)].
    + apply first_lits.
      eapply first_seq; [apply first_plus_run; auto; reflexivity|].
      apply first_lits.
      change (str ")") with [rparen]. change (str ")" ++ aa_sp a ++
        arg_annotations_text l1 (plain_annotations_text l2 (modifier ++ r)))
        with (rparen :: aa_sp a ++
              arg_annotations_text l1 (plain_annotations_text l2 (modifier ++ r))).
      apply first_lazy_until.
      * intros x Hx E. rewrite forallb_forall in Hargs. specialize (Hargs _ Hx).
        subst x. cbn in Hargs. discriminate Hargs.
      * apply first_plus_run; auto. apply stops_space_annotations. exact Im.
    + cbn [fst]. rewrite !length_app. cbn [length str map list_ascii_of_string]. lia.
Qed.

Lemma first_plain_annotations (l2 : list plain_annotation) (modifier r : text)
      (c : caps) :
  forallb plain_annotation_ok l2 = true ->
  identifier modifier = true ->
  hd_error
    (ms (Star true
           (Seq (lits (str "@")) (Seq (plus (Chr Word)) (plus (Chr Space)))))
        (plain_annotations_text l2 (modifier ++ r), c))
  = Some (modifier ++ r, c).
Proof.
  intros H2 Im. induction l2 as [|b l2 IH]; cbn [plain_annotations_text].
  - apply first_star_skip. apply ms_at_identifier. exact Im.
  - cbn [forallb] in H2. apply andb_prop in H2 as [Hb H2].
    unfold plain_annotation_ok in Hb. apply andb_prop in Hb as [Hn Hsp].
    destruct (identifier_run _ Hn) as [Nn Rn].
    destruct (blank_run _ Hsp) as [Ns Rs].
    eapply first_star_loop; [| |exact (IH H2)].
    + apply first_lits.
      eapply first_seq;
        [apply first_plus_run; auto; apply stops_word_blank; exact Hsp|].
      apply first_plus_run; auto. apply stops_space_plain. exact Im.
    + cbn [fst]. rewrite !length_app. cbn [length str map list_ascii_of_string]. lia.
Qed.

(** X11.  A test method is recognized through further annotations between
    @Test and its modifier when those with parenthesized arguments (holding
    no closing parenthesis) come first and those without arguments follow:
    with exactly one @Test marker outside the matched declaration, the
    test-method names are exactly the method's identifier. *)
Theorem annotated_test_method
        (pre sp0 : text) (with_args : list arg_annotation)
        (plain : list plain_annotation) (modifier sp2 sp3 name post : text) :
  blank sp0 = true ->
  forallb arg_annotation_ok with_args = true ->
  forallb plain_annotation_ok plain = true ->
  identifier modifier = true -> blank sp2 = true -> blank sp3 = true ->
  identifier name = true -> stops Word post = true ->
  marker_free (str "@Test") pre
    (str "@Test" ++ sp0 ++
     arg_annotations_text with_args
       (plain_annotations_text plain
          (modifier ++ sp2 ++ str "void" ++ sp3 ++ name ++ post))) = true ->
  marker_free (str "@Test") post [] = true ->
  test_methods
    (analyze
       (pre ++ str "@Test" ++ sp0 ++
        arg_annotations_text with_args
          (plain_annotations_text plain
             (modifier ++ sp2 ++ str "void" ++ sp3 ++ name ++ post)))) = [name].
Proof.
  intros B0 Ha Hp Im B2 B3 In Hpost Fpre Fpost.
  destruct (blank_run _ B0) as [N0 R0]. destruct (blank_run _ B2) as [N2 R2].
  destruct (blank_run _ B3) as [N3 R3].
  destruct (identifier_run _ Im) as [Nm Rm].
  destruct (identifier_run _ In) as [Nn Rn].
  unfold analyze, findall1. cbn [test_methods]. unfold test_methods_re.
  rewrite (scan_gap _ _ _ _ Fpre).
  assert (M : match_at test_methods_re
                (str "@Test" ++ sp0 ++
                 arg_annotations_text with_args
                   (plain_annotations_text plain
                      (modifier ++ sp2 ++ str "void" ++ sp3 ++ name ++ post)))
              = Some (post, [(1, name)])).
  { unfold match_at, test_methods_re, ws1, word1.
    apply first_lits.
    eapply first_seq;
      [apply first_plus_run; auto; apply stops_space_annotations; exact Im|].
    eapply first_seq; [apply first_arg_annotations; assumption|].
    eapply first_seq; [apply first_plain_annotations; assumption|].
    eapply first_seq;
      [apply first_plus_run; auto; apply stops_word_blank; exact B2|].
    eapply first_seq; [apply first_plus_run; auto|].
    apply first_lits.
    eapply first_seq;
      [apply first_plus_run; auto; apply stops_space_identifier; exact In|].
    apply first_group_run; auto. }
  fold test_methods_re.
  rewrite (@scan_match _ _ post [(1, name)] M).
  - unfold test_methods_re.
    rewrite scan_marker_free by (assumption || discriminate). reflexivity.
  - pose proof (length_arg_annotations_text with_args
                  (plain_annotations_text plain
                     (modifier ++ sp2 ++ str "void" ++ sp3 ++ name ++ post))) as L1.
    pose proof (length_plain_annotations_text plain
                  (modifier ++ sp2 ++ str "void" ++ sp3 ++ name ++ post)) as L2.
    rewrite !length_app in L2. rewrite !length_app.
    change (length (str "@Test")) with 5. lia.
Qed.

(** ** Literal markers in a larger text *)

Lemma prefixb_app_r (m s post : text) :
  prefixb m s = true -> prefixb m (s ++ post) = true.
Proof.
  revert s. induction m as [|a m IH]; intros [|b s]; cbn [prefixb app];
    try discriminate; auto.
  intros H. apply andb_prop in H as [H1 H2]. rewrite H1, (IH _ H2). reflexivity.
Qed.

Lemma occurrences_app_r (m t post : text) :
  m <> [] -> occurrences m t <= occurrences m (t ++ post).
Proof.
  intros Hm. induction t as [|x t IH].
  - cbn [occurrences app]. destruct m; [congruence|]. cbn [prefixb]. lia.
  - cbn [occurrences app]. destruct (prefixb m (x :: t)) eqn:P.
    + change (x :: t ++ post) with ((x :: t) ++ post).
      rewrite (prefixb_app_r _ _ post P). lia.
    + destruct (prefixb m (x :: t ++ post)); lia.
Qed.

Lemma occurrences_app_l (m pre t : text) :
  occurrences m t <= occurrences m (pre ++ t).
Proof.
  induction pre as [|x pre IH]; cbn [app occurrences]; lia.
Qed.

(** X12.  Text put before or behind a text never lowers its timeout count or
    its mocking count: a literal marker stays found whatever surrounds it. *)
Theorem literal_counts_monotone (pre content post : text) :
  timeouts (analyze content) <= timeouts (analyze (pre ++ content ++ post)) /\
  mockito_usage (analyze content) <=
    mockito_usage (analyze (pre ++ content ++ post)).
Proof.
  assert (G : forall a m', ~ In a m' ->
              length (scan (lits (a :: m')) content 0) <=
              length (scan (lits (a :: m')) (pre ++ content ++ post) 0)).
  { intros a m' H.
    rewrite (@scan_lits_count a m' H (length content) content (le_n _)).
    rewrite (@scan_lits_count a m' H (length (pre ++ content ++ post)) _ (le_n _)).
    etransitivity; [apply (@occurrences_app_r (a :: m') content post); discriminate|].
    apply occurrences_app_l. }
  unfold analyze, findall0. cbn [timeouts mockito_usage].
  rewrite !length_map. split.
  - apply (G 64%N (str "Timeout")).
    intros H. cbv in H. repeat (destruct H as [H|H]; [discriminate H|]). exact H.
  - apply (G 64%N (str "ExtendWith(MockitoExtension.class)")).
    intros H. cbv in H. repeat (destruct H as [H|H]; [discriminate H|]). exact H.
Qed.

End Properties.

(** ** The theorems at sample inputs *)

Lemma analyze_nothing_recognized_witness :
  nothing_recognized (U := ascii_only) plain_text = true /\
  test_methods (analyze (U := ascii_only) plain_text) = [] /\
  uses_mocking_framework (analyze (U := ascii_only) plain_text) = false.
Proof.
  assert (H : nothing_recognized (U := ascii_only) plain_text = true)
    by (vm_compute; reflexivity).
  split; [exact H|].
  pose proof (@analyze_nothing_recognized ascii_only plain_text H) as T.
  split; [apply T | apply T].
Defined.

(** Dropping the import line of a file whose import names CompletableFuture
    takes the concurrency count from 1 to 0; dropping an import line that
    stands between @Test and a method makes a test method appear. *)
Lemma import_removal_changes_other_fields :
  concurrent_patterns (analyze (U := ascii_only) (unlines import_of_future)) = 1 /\
  concurrent_patterns
    (analyze (U := ascii_only) (unlines (filter not_import import_of_future))) = 0 /\
  imports (analyze (U := ascii_only) (unlines (filter not_import import_of_future))) = [] /\
  test_methods (analyze (U := ascii_only) (unlines import_after_marker)) = [] /\
  test_methods
    (analyze (U := ascii_only) (unlines (filter not_import import_after_marker)))
    = [str "foo"].
Proof. vm_compute. repeat split. Qed.

Lemma removing_lines_keeps_counts_witness :
  dropped_hold_none (U := ascii_only) concurrent_patterns_re not_import import_of_list = true /\
  dropped_hold_none (U := ascii_only) assertions_re not_import import_of_list = true /\
  concurrent_patterns
    (analyze (U := ascii_only) (unlines (filter not_import import_of_list))) =
  concurrent_patterns (analyze (U := ascii_only) (unlines import_of_list)) /\
  assertions
    (analyze (U := ascii_only) (unlines (filter not_import import_of_list))) =
  assertions (analyze (U := ascii_only) (unlines import_of_list)).
Proof.
  assert (Hc : dropped_hold_none (U := ascii_only) concurrent_patterns_re
                 not_import import_of_list = true) by (vm_compute; reflexivity).
  assert (Ha : dropped_hold_none (U := ascii_only) assertions_re
                 not_import import_of_list = true) by (vm_compute; reflexivity).
  pose proof (@removing_lines_keeps_counts ascii_only not_import import_of_list)
    as (Ta & _ & Tc & _).
  split; [exact Hc|]. split; [exact Ha|]. split; [exact (Tc Hc) | exact (Ta Ha)].
Defined.

(** A test method declared without a modifier is not recognized. *)
Lemma modifierless_test_not_recognized :
  modifierless_test =
    str "@Test" ++ str " " ++ str "void" ++ str " " ++ str "foo" ++ str "() {}" /\
  test_methods (analyze (U := ascii_only) modifierless_test) = [].
Proof. vm_compute. split; reflexivity. Qed.

Lemma single_test_method_witness :
  test_methods
    (analyze (U := ascii_only)
       (str "class T {" ++ str "@Test" ++ [nl] ++ str "public" ++ str " " ++
        str "void" ++ str " " ++ str "testFoo" ++ str "() {} }")) =
  [str "testFoo"].
Proof.
  apply (@single_test_method ascii_only (str "class T {") [nl] (str "public")
           (str " ") (str " ") (str "testFoo") (str "() {} }"));
    vm_compute; reflexivity.
Defined.

(** A declaration with the empty display name, and one whose display name
    holds escaped double quotes, contribute no pair. *)
Lemma unquotable_names_not_recognized :
  groups_text [empty_name_decl] (str " {}") =
    str "@Nested @DisplayName(" ++ dq :: dq :: str ") class A {}" /\
  nested_classes
    (analyze (U := ascii_only) (groups_text [empty_name_decl] (str " {}"))) = [] /\
  nested_classes (analyze (U := ascii_only) escaped_quotes_text) = [].
Proof. vm_compute. repeat split. Qed.

Lemma nested_groups_in_order_witness :
  well_formed (U := ascii_only) two_groups (str " { } }") = true /\
  nested_classes
    (analyze (U := ascii_only) (groups_text two_groups (str " { } }"))) =
  [ (str "Exact duplicates", str "ExactTests");
    (str "Metadata duplicates", str "MetadataTests") ].
Proof.
  assert (H : well_formed (U := ascii_only) two_groups (str " { } }") = true)
    by (vm_compute; reflexivity).
  split; [exact H|].
  exact (@nested_groups_in_order ascii_only two_groups (str " { } }") H).
Defined.

Lemma key_test_methods_sample_witness :
  length (test_methods (with_test_methods fifteen_names)) = 15 /\
  print_key_methods (with_test_methods fifteen_names) [] =
    [nl :: str "[KEY TEST METHODS] (sample):"]
      ++ map (fun m => str "   * " ++ m) (firstn 10 fifteen_names)
      ++ [str "   ... and 5 more"] /\
  length (test_methods (with_test_methods three_names)) = 3 /\
  print_key_methods (with_test_methods three_names) [] =
    [nl :: str "[KEY TEST METHODS] (sample):"]
      ++ map (fun m => str "   * " ++ m) three_names.
Proof.
  pose proof (key_test_methods_sample (with_test_methods fifteen_names) [])
    as (_ & T15 & _).
  pose proof (key_test_methods_sample (with_test_methods three_names) [])
    as (_ & _ & T3).
  split; [reflexivity|]. split; [exact (T15 eq_refl)|].
  split; [reflexivity | exact (T3 eq_refl)].
Defined.

Lemma missing_file_witness :
  analyze_test_file (U := ascii_only) empty_fs =
  (Returned, [str "Test file not found: " ++ test_file_path]).
Proof.
  apply (@missing_file ascii_only empty_fs). reflexivity.
Defined.

Lemma nested_display_names_witness :
  str "Exact duplicates" <> [] /\ ~ In dq (str "Exact duplicates").
Proof.
  apply (@nested_display_names ascii_only
           (groups_text two_groups (str " { } }"))
           (str "Exact duplicates") (str "ExactTests")).
  vm_compute. left. reflexivity.
Defined.

Lemma relevant_ignores_case_witness :
  relevant (U := ascii_only) (map ascii_to_upper (str "createTempFile")) =
  relevant (U := ascii_only) (str "createTempFile").
Proof.
  apply (@relevant_ignores_case ascii_only (str "createTempFile")). reflexivity.
Defined.

Lemma test_method_names_from_text_witness :
  identifier (U := ascii_only) (str "findsDuplicates") = true /\
  substring (str "findsDuplicates") sample_source.
Proof.
  apply (@test_method_names_from_text ascii_only sample_source
           (str "findsDuplicates")).
  vm_compute. left. reflexivity.
Defined.

Lemma helper_method_names_from_text_witness :
  identifier (U := ascii_only) (str "createTempFile") = true /\
  substring (str "createTempFile") sample_source.
Proof.
  apply (@helper_method_names_from_text ascii_only sample_source
           (str "createTempFile")).
  vm_compute. left. reflexivity.
Defined.

Lemma import_names_from_text_witness :
  str "java.util.List" <> [] /\ ~ In semicolon (str "java.util.List") /\
  substring (str "java.util.List") sample_source.
Proof.
  apply (@import_names_from_text ascii_only sample_source (str "java.util.List")).
  vm_compute. left. reflexivity.
Defined.

Lemma nested_class_names_from_text_witness :
  identifier (U := ascii_only) (str "ExactTests") = true /\
  substring (str "ExactTests") sample_source /\
  substring (str "Exact duplicates") sample_source.
Proof.
  apply (@nested_class_names_from_text ascii_only sample_source
           (str "Exact duplicates") (str "ExactTests")).
  vm_compute. left. reflexivity.
Defined.

Lemma annotated_test_method_witness :
  test_methods
    (analyze (U := ascii_only)
       (str "class T {" ++ str "@Test" ++ [nl] ++
        arg_annotations_text sample_arg_annotations
          (plain_annotations_text sample_plain_annotations
             (str "public" ++ str " " ++ str "void" ++ str " " ++
              str "findsDuplicates" ++ str "() {} }")))) =
  [str "findsDuplicates"].
Proof.
  apply (@annotated_test_method ascii_only (str "class T {") [nl]
           sample_arg_annotations sample_plain_annotations
           (str "public") (str " ") (str " ") (str "findsDuplicates")
           (str "() {} }"));
    vm_compute; reflexivity.
Defined.

